(** * FAHREN: parameter counting and weight-blob serialization

    A shallow embedding of [fahren_init] and [fahren_write_random_weights]
    (the implementation file of the FAHREN library together with
    [include/fahren/fahren.h]) and the properties of the parameter
    Counter, the Materializer and the Blob Writer.

    Target assumed throughout: an LP64 POSIX platform, that is a 32-bit
    [int], a 64-bit [size_t] ([SIZE_MAX = 2^64 - 1]), [sizeof(float) = 4]
    and little-endian byte order. *)

From Stdlib Require Import ZArith Lia.
From stdpp Require Import base option list gmap strings.

Local Open Scope Z_scope.

(** ** Machine integers *)

Definition SIZE_MAX : Z := 18446744073709551615.
Definition INT_MAX : Z := 2147483647.

(** Arithmetic on [size_t] wraps around modulo [SIZE_MAX + 1]. *)
Definition size_wrap (z : Z) : Z := z mod (SIZE_MAX + 1).
Definition size_add (a b : Z) : Z := size_wrap (a + b).
Definition size_sub (a b : Z) : Z := size_wrap (a - b).
Definition size_mul (a b : Z) : Z := size_wrap (a * b).

(** The conversion [(size_t)d] of an [int]. *)
Definition size_of_int (d : Z) : Z := size_wrap d.

Definition sizeof_float : Z := 4.

(** ** Declarations of [fahren.h] *)

Definition FAHREN_VERSION_MAJOR : Z := 1.
Definition FAHREN_VERSION_MINOR : Z := 0.
Definition FAHREN_VERSION_PATCH : Z := 0.

Inductive FAHRENStatus : Type :=
| FAHREN_SUCCESS
| FAHREN_ERROR_INVALID_ARGUMENT
| FAHREN_ERROR_NOT_INITIALIZED
| FAHREN_ERROR_PROCESSING_FAILED.

Inductive FAHRENModelType : Type :=
| FAHREN_MODEL_SEQUENTIAL.

Inductive FAHRENLayerType : Type :=
| FAHREN_LAYER_DENSE
| FAHREN_LAYER_CONVOLUTIONAL.

(** Layers live in memory; an address counts in units of
    [sizeof(FAHRENLayer)], so that element [i] of the array at [base] is
    at [base + i].  [None] is the null pointer. *)
Abbreviation addr := Z (only parsing).

Record FAHRENLayer : Type := Layer {
  density : Z;
  previous_layer : option addr;
  layer_type : FAHRENLayerType
}.

Record FAHREN : Type := Handle {
  initialized : Z;
  layer_count : Z;
  model_type : FAHRENModelType;
  layers : option addr
}.

(** ** Executions

    A run of C code either completes with a value or has undefined
    behaviour (a null or dangling dereference, an out-of-bounds store, a
    read of an indeterminate value). *)

Inductive exec (A : Type) : Type :=
| Ran (a : A)
| Undef.
Arguments Ran {A} a.
Arguments Undef {A}.

Definition exec_bind {A B : Type} (m : exec A) (k : A -> exec B) : exec B :=
  match m with
  | Ran a => k a
  | Undef => Undef
  end.

Notation "'let*' x ':=' m 'in' k" := (exec_bind m (fun x => k))
  (at level 10, x pattern, m at level 100, k at level 200).

(** ** The world outside the function *)

(** A [float] is kept as its 32-bit pattern; a byte as an 8-bit value. *)
Definition float32 : Type := Z.
Definition byte : Type := Z.

Inductive event : Type :=
| EvMalloc (size : Z) (ok : bool)
| EvFree (live : bool)
| EvRandom (v : float32)
| EvFopen (path : string) (ok : bool)
| EvFwrite (path : string) (data : list byte) (written : nat)
| EvFclose (path : string).

(** Layer memory, the file system, and the calls made so far (latest
    first). *)
Record world : Type := World {
  heap : gmap Z FAHRENLayer;
  files : gmap string (list byte);
  trace : list event
}.

(** What the platform answers, given the history of calls: whether
    [malloc] of that many bytes succeeds, the next random sample, whether
    [fopen] succeeds, how many bytes of an [fwrite] the stream takes, and
    how many of the bytes a stream holds it writes out to the file when
    it gets the occasion (after an [fwrite], and when it is closed). *)
Record environment : Type := Environment {
  malloc_succeeds : list event -> Z -> bool;
  random_sample : list event -> float32;
  fopen_succeeds : list event -> string -> bool;
  fwrite_accepts : list event -> list byte -> nat;
  written_out : list event -> nat -> nat
}.

(** A [FILE*] open for writing: the path it was opened on and the bytes
    it has taken that have not reached the file yet. *)
Record stream : Type := Stream {
  stream_path : string;
  buffered : list byte
}.

Definition emit (e : event) (w : world) : world :=
  {| heap := heap w; files := files w; trace := e :: trace w |}.

(** A [float*]: null, or an array of cells that are indeterminate until
    stored to. *)
Definition buffer : Type := option (list (option float32)).

(** ** Byte layout *)

Fixpoint le_bytes (n : nat) (z : Z) : list byte :=
  match n with
  | O => []
  | S n' => z mod 256 :: le_bytes n' (z / 256)
  end.

Definition le_value (bs : list byte) : Z :=
  foldr (fun b acc => b + 256 * acc) 0 bs.

Definition float_bytes (vs : list float32) : list byte :=
  concat (map (le_bytes 4) vs).

Definition FAHREN_MAGIC : Z := 0x4641484E.

(** ** Counting (first loop of [fahren_write_random_weights]) *)

Definition load_layer (mem : gmap Z FAHRENLayer) (p : option addr) (i : Z)
  : exec FAHRENLayer :=
  match p with
  | None => Undef
  | Some base =>
      match mem !! (base + i) with
      | Some l => Ran l
      | None => Undef
      end
  end.

(** The pair [(layer_weights, out_dim)] computed for [layers[i]]. *)
Definition layer_counts (mem : gmap Z FAHRENLayer) (base : option addr) (i : Z)
  : exec (Z * Z) :=
  let* layer := load_layer mem base i in
  let* in_dim :=
    match previous_layer layer with
    | Some p => let* prev := load_layer mem (Some p) 0 in
                Ran (size_of_int (density prev))
    | None => Ran 1
    end in
  let out_dim := size_of_int (density layer) in
  let layer_weights := size_mul in_dim out_dim in
  let layer_weights :=
    match layer_type layer with
    | FAHREN_LAYER_CONVOLUTIONAL => size_mul layer_weights 9
    | FAHREN_LAYER_DENSE => layer_weights
    end in
  Ran (layer_weights, out_dim).

(** [n] iterations remain, [i] is the loop index; [inl s] is an early
    [return s]. *)
Fixpoint count_loop (mem : gmap Z FAHRENLayer) (base : option addr) (n : nat)
    (i total_weights total_biases : Z) : exec (FAHRENStatus + Z * Z) :=
  match n with
  | O => Ran (inr (total_weights, total_biases))
  | S n' =>
      let* (layer_weights, out_dim) := layer_counts mem base i in
      if layer_weights >? size_sub SIZE_MAX total_weights
      then Ran (inl FAHREN_ERROR_PROCESSING_FAILED)
      else
        let total_weights := size_add total_weights layer_weights in
        if out_dim >? size_sub SIZE_MAX total_biases
        then Ran (inl FAHREN_ERROR_PROCESSING_FAILED)
        else
          let total_biases := size_add total_biases out_dim in
          count_loop mem base n' (i + 1) total_weights total_biases
  end.

(** The Counter on a handle. *)
Definition count_parameters (mem : gmap Z FAHRENLayer) (cm : FAHREN)
  : exec (FAHRENStatus + Z * Z) :=
  count_loop mem (layers cm) (Z.to_nat (layer_count cm)) 0 0 0.

(** ** Library calls *)

Section Implementation.

Variable env : environment.

(** [malloc(size)] seen as a [float*]: [size / sizeof(float)] cells. *)
Definition malloc (size : Z) (w : world) : buffer * world :=
  if malloc_succeeds env (trace w) size
  then (Some (replicate (Z.to_nat (size / sizeof_float)) None),
        emit (EvMalloc size true) w)
  else (None, emit (EvMalloc size false) w).

Definition free (buf : buffer) (w : world) : world :=
  emit (EvFree (bool_decide (is_Some buf))) w.

(** [fahren_random_weight()]: one sample drawn from the platform. *)
Definition fahren_random_weight (w : world) : float32 * world :=
  let v := random_sample env (trace w) in (v, emit (EvRandom v) w).

(** [fopen(path, "wb")]: creates or truncates the file; [None] is the
    null stream. *)
Definition fopen_wb (path : string) (w : world) : option stream * world :=
  if fopen_succeeds env (trace w) path
  then (Some (Stream path []),
        {| heap := heap w;
           files := <[path := []]> (files w);
           trace := EvFopen path true :: trace w |})
  else (None, emit (EvFopen path false) w).

(** The stream writes out what it holds: the first bytes, as many as the
    platform lets through, are appended to the file, the others stay in
    the stream. *)
Definition write_out (f : stream) (w : world) : stream * world :=
  let d := written_out env (trace w) (length (buffered f)) in
  (Stream (stream_path f) (drop d (buffered f)),
   {| heap := heap w;
      files := alter (fun old => old ++ take d (buffered f))
                     (stream_path f) (files w);
      trace := trace w |}).

(** [fwrite] of [data] to the stream; [true] when every item was taken.
    The stream is buffered: what it takes need not be in the file when
    [fwrite] returns. *)
Definition fwrite (f : stream) (data : list byte) (w : world)
  : bool * stream * world :=
  let k := fwrite_accepts env (trace w) data in
  let r := write_out (Stream (stream_path f) (buffered f ++ take k data))
                     (emit (EvFwrite (stream_path f) data k) w) in
  (bool_decide (length data ≤ k)%nat, r.1, r.2).

(** [fclose]: the stream writes out what it still holds, and what does
    not get through is lost.  The source ignores the result of [fclose],
    so none is returned. *)
Definition fclose (f : stream) (w : world) : world :=
  (write_out f (emit (EvFclose (stream_path f)) w)).2.

(** Consecutive [if (fwrite(...) != 1) goto io_error;] statements. *)
Fixpoint fwrite_each (f : stream) (chunks : list (list byte)) (w : world)
  : bool * stream * world :=
  match chunks with
  | [] => (true, f, w)
  | c :: rest =>
      let '(ok, f, w) := fwrite f c w in
      if ok then fwrite_each f rest w else (false, f, w)
  end.

(** ** Buffers *)

(** [buf[idx] = v]. *)
Definition store (buf : buffer) (idx : Z) (v : float32) : exec buffer :=
  match buf with
  | None => Undef
  | Some cells =>
      if bool_decide (idx < Z.of_nat (length cells))
      then Ran (Some (<[Z.to_nat idx := Some v]> cells))
      else Undef
  end.

(** The [count] floats that [fwrite(buf, sizeof(float), count, f)] reads. *)
Definition read_floats (buf : buffer) (count : Z) : exec (list float32) :=
  match buf with
  | None => Undef
  | Some cells =>
      if bool_decide (count ≤ Z.of_nat (length cells))
      then match mapM id (take (Z.to_nat count) cells) with
           | Some vs => Ran vs
           | None => Undef
           end
      else Undef
  end.

(** ** Filling (second loop of [fahren_write_random_weights]) *)

(** [for (k = 0; k < count; ++k) buf[idx++] = fahren_random_weight();] *)
Fixpoint fill_slice (k : nat) (buf : buffer) (idx : Z) (w : world)
  : exec (buffer * Z * world) :=
  match k with
  | O => Ran (buf, idx, w)
  | S k' =>
      let (v, w) := fahren_random_weight w in
      let* buf := store buf idx v in
      fill_slice k' buf (size_add idx 1) w
  end.

Fixpoint fill_loop (base : option addr) (n : nat) (i : Z)
    (weights biases : buffer) (widx bidx : Z) (w : world)
  : exec (buffer * buffer * Z * Z * world) :=
  match n with
  | O => Ran (weights, biases, widx, bidx, w)
  | S n' =>
      let* layer := load_layer (heap w) base i in
      let* in_dim :=
        match previous_layer layer with
        | Some p => let* prev := load_layer (heap w) (Some p) 0 in
                    Ran (size_of_int (density prev))
        | None => Ran 1
        end in
      let out_dim := size_of_int (density layer) in
      let layer_weights := size_mul in_dim out_dim in
      let layer_weights :=
        match layer_type layer with
        | FAHREN_LAYER_CONVOLUTIONAL => size_mul layer_weights 9
        | FAHREN_LAYER_DENSE => layer_weights
        end in
      let* (weights, widx, w) :=
        fill_slice (Z.to_nat layer_weights) weights widx w in
      let* (biases, bidx, w) :=
        fill_slice (Z.to_nat out_dim) biases bidx w in
      fill_loop base n' (i + 1) weights biases widx bidx w
  end.

(** ** Writing the blob *)

Definition blob_header (total_weights total_biases : Z) : list (list byte) :=
  [ le_bytes 4 FAHREN_MAGIC;
    le_bytes 4 FAHREN_VERSION_MAJOR;
    le_bytes 4 FAHREN_VERSION_MINOR;
    le_bytes 4 FAHREN_VERSION_PATCH;
    le_bytes 8 total_weights;
    le_bytes 8 total_biases ].

(** The [io_error:] label. *)
Definition io_error (f : stream) (weights biases : buffer) (w : world)
  : FAHRENStatus * world :=
  (FAHREN_ERROR_PROCESSING_FAILED, free biases (free weights (fclose f w))).

(** [if (count > 0) { if (fwrite(buf, sizeof(float), count, f) != count)
    goto io_error; }] *)
Definition fwrite_floats (f : stream) (buf : buffer) (count : Z) (w : world)
  : exec (bool * stream * world) :=
  if 0 <? count
  then let* vs := read_floats buf count in
       Ran (fwrite f (float_bytes vs) w)
  else Ran (true, f, w).

Definition write_blob (path : string) (total_weights total_biases : Z)
    (weights biases : buffer) (w : world) : exec (FAHRENStatus * world) :=
  let (f, w) := fopen_wb path w in
  match f with
  | None => Ran (FAHREN_ERROR_PROCESSING_FAILED, free biases (free weights w))
  | Some f =>
      let '(ok, f, w) :=
        fwrite_each f (blob_header total_weights total_biases) w in
      if negb ok then Ran (io_error f weights biases w)
      else
        let* (ok, f, w) := fwrite_floats f weights total_weights w in
        if negb ok then Ran (io_error f weights biases w)
        else
          let* (ok, f, w) := fwrite_floats f biases total_biases w in
          if negb ok then Ran (io_error f weights biases w)
          else
            Ran (FAHREN_SUCCESS, free biases (free weights (fclose f w)))
  end.

(** ** [fahren_write_random_weights] *)

Definition fahren_write_random_weights (cm : option FAHREN)
    (path : option string) (w : world) : exec (FAHRENStatus * world) :=
  match cm, path with
  | None, _ | _, None => Ran (FAHREN_ERROR_INVALID_ARGUMENT, w)
  | Some cm, Some path =>
      if initialized cm =? 0 then Ran (FAHREN_ERROR_NOT_INITIALIZED, w)
      else
        (* Count weights and biases *)
        let* counted := count_parameters (heap w) cm in
        match counted with
        | inl status => Ran (status, w)
        | inr (total_weights, total_biases) =>
            (* Prepare buffers *)
            let (weights, w) :=
              if 0 <? total_weights
              then malloc (size_mul total_weights sizeof_float) w
              else (None, w) in
            if (0 <? total_weights) && bool_decide (weights = None)
            then Ran (FAHREN_ERROR_PROCESSING_FAILED, w)
            else
              let (biases, w) :=
                if 0 <? total_biases
                then malloc (size_mul total_biases sizeof_float) w
                else (None, w) in
              if (0 <? total_biases) && bool_decide (biases = None)
              then Ran (FAHREN_ERROR_PROCESSING_FAILED, free weights w)
              else
                (* Fill random values *)
                let* (weights, biases, _, _, w) :=
                  fill_loop (layers cm) (Z.to_nat (layer_count cm)) 0
                            weights biases 0 0 w in
                (* Write binary blob *)
                write_blob path total_weights total_biases weights biases w
        end
  end.

(** ** [fahren_init] *)

Definition initial_model_path : string := "fahren_initial_model.bin".

Definition fahren_init (cm : option FAHREN) (mt : FAHRENModelType)
    (count : Z) (ls : option addr) (w : world)
  : exec (FAHRENStatus * option FAHREN * world) :=
  match cm, ls with
  | None, _ | _, None => Ran (FAHREN_ERROR_INVALID_ARGUMENT, cm, w)
  | Some h, Some p =>
      if count =? 0 then Ran (FAHREN_ERROR_INVALID_ARGUMENT, cm, w)
      else
        let h := {| initialized := initialized h; layer_count := layer_count h;
                    model_type := mt; layers := layers h |} in
        let h := {| initialized := initialized h; layer_count := count;
                    model_type := model_type h; layers := layers h |} in
        let h := {| initialized := initialized h; layer_count := layer_count h;
                    model_type := model_type h; layers := Some p |} in
        let h := {| initialized := 1; layer_count := layer_count h;
                    model_type := model_type h; layers := layers h |} in
        (* write initial random weights & biases for inspection *)
        let* (_, w) :=
          fahren_write_random_weights (Some h) (Some initial_model_path) w in
        Ran (FAHREN_SUCCESS, Some h, w)
  end.

End Implementation.

(** ** Layer sequences as the Counter reads them *)

(** What one loop iteration reads of a layer: the predecessor's density
    ([1] without predecessor), the layer's own density, and its kind. *)
Record dims : Type := Dims {
  in_dim : Z;
  out_dim : Z;
  kind : FAHRENLayerType
}.

Definition resolve_layer (mem : gmap Z FAHRENLayer) (base : option addr) (i : Z)
  : option dims :=
  match base with
  | None => None
  | Some b =>
      match mem !! (b + i) with
      | None => None
      | Some l =>
          match previous_layer l with
          | None => Some (Dims 1 (density l) (layer_type l))
          | Some p =>
              match mem !! p with
              | None => None
              | Some prev =>
                  Some (Dims (density prev) (density l) (layer_type l))
              end
          end
      end
  end.

(** The [n] layers from index [i] on of the array at [base]. *)
Fixpoint resolve_layers (mem : gmap Z FAHRENLayer) (base : option addr)
    (n : nat) (i : Z) : option (list dims) :=
  match n with
  | O => Some []
  | S n' =>
      match resolve_layer mem base i, resolve_layers mem base n' (i + 1) with
      | Some d, Some ds => Some (d :: ds)
      | _, _ => None
      end
  end.

(** The layer sequence of a handle. *)
Definition layer_sequence (mem : gmap Z FAHRENLayer) (cm : FAHREN)
  : option (list dims) :=
  resolve_layers mem (layers cm) (Z.to_nat (layer_count cm)) 0.

(** The parameter counts in exact arithmetic. *)
Definition kernel_factor (k : FAHRENLayerType) : Z :=
  match k with
  | FAHREN_LAYER_CONVOLUTIONAL => 9
  | FAHREN_LAYER_DENSE => 1
  end.

Definition weight_count (d : dims) : Z :=
  in_dim d * out_dim d * kernel_factor (kind d).

Definition bias_count (d : dims) : Z := out_dim d.

Definition Zsum (l : list Z) : Z := foldr Z.add 0 l.

Definition total_weight_count (ds : list dims) : Z := Zsum (weight_count <$> ds).
Definition total_bias_count (ds : list dims) : Z := Zsum (bias_count <$> ds).

(** The same counts in [size_t] arithmetic, as both loops compute them. *)
Definition machine_weights (d : dims) : Z := size_wrap (weight_count d).
Definition machine_biases (d : dims) : Z := size_wrap (bias_count d).

(** Densities are non-negative [int]s and the layer's weight count is
    representable. *)
Definition fits (d : dims) : Prop :=
  0 ≤ in_dim d ∧ 0 ≤ out_dim d ≤ INT_MAX ∧ weight_count d ≤ SIZE_MAX.

(** ** The blob *)

Definition blob (total_weights total_biases : Z) (ws bs : list float32)
  : list byte :=
  concat (blob_header total_weights total_biases)
  ++ float_bytes ws ++ float_bytes bs.

(** ** Platforms *)

(** A platform on which no call whose result the source looks at fails:
    [malloc], [fopen] and [fwrite]. *)
Definition cooperative (env : environment) : Prop :=
  (∀ h size, malloc_succeeds env h size = true) ∧
  (∀ h path, fopen_succeeds env h path = true) ∧
  (∀ h data, fwrite_accepts env h data = length data).

(** A platform on which [fclose] does not fail: a stream that is closed
    writes out all it holds. *)
Definition closes_cleanly (env : environment) : Prop :=
  ∀ h path n, (n ≤ written_out env (EvFclose path :: h) n)%nat.

(** A platform on which nothing fails, and streams write through. *)
Definition generous : environment :=
  {| malloc_succeeds := fun _ _ => true;
     random_sample := fun h => Z.of_nat (length h);
     fopen_succeeds := fun _ _ => true;
     fwrite_accepts := fun _ data => length data;
     written_out := fun _ n => n |}.

(** A platform out of memory. *)
Definition exhausted : environment :=
  {| malloc_succeeds := fun _ _ => false;
     random_sample := fun _ => 0;
     fopen_succeeds := fun _ _ => true;
     fwrite_accepts := fun _ data => length data;
     written_out := fun _ n => n |}.

(** A platform on which nothing fails, and streams hold what they are
    given until they are closed. *)
Definition buffering : environment :=
  {| malloc_succeeds := fun _ _ => true;
     random_sample := fun h => Z.of_nat (length h);
     fopen_succeeds := fun _ _ => true;
     fwrite_accepts := fun _ data => length data;
     written_out := fun h n =>
       match h with
       | EvFclose _ :: _ => n
       | _ => O
       end |}.

(** A platform whose streams hold what they are given until they are
    closed, and whose files cannot grow beyond 40 bytes: every [fwrite]
    of the blob of a small model returns its full count, and the [fclose]
    gets 40 bytes through. *)
Definition capped : environment :=
  {| malloc_succeeds := fun _ _ => true;
     random_sample := fun h => Z.of_nat (length h);
     fopen_succeeds := fun _ _ => true;
     fwrite_accepts := fun _ data => length data;
     written_out := fun h n =>
       match h with
       | EvFclose _ :: _ => Nat.min 40 n
       | _ => O
       end |}.

(** The paths opened in a trace. *)
Definition opened (t : list event) : list string :=
  omap (fun e => match e with EvFopen p _ => Some p | _ => None end) t.

(** ** Sample models *)

(** Two Dense layers with densities 3 and 2, the second after the first. *)
Definition two_dense : gmap Z FAHRENLayer :=
  <[100 := Layer 3 None FAHREN_LAYER_DENSE]>
    (<[101 := Layer 2 (Some 100) FAHREN_LAYER_DENSE]> ∅).

Definition two_dense_handle : FAHREN :=
  Handle 1 2 FAHREN_MODEL_SEQUENTIAL (Some 100).

(** One Dense layer of density 962528571 followed by a Convolutional
    layer of density 2129431055; 9 * 962528571 * 2129431055 = 2^64 + 29. *)
Definition wrapping : gmap Z FAHRENLayer :=
  <[0 := Layer 962528571 None FAHREN_LAYER_DENSE]>
    (<[1 := Layer 2129431055 (Some 0) FAHREN_LAYER_CONVOLUTIONAL]> ∅).

Definition wrapping_handle : FAHREN :=
  Handle 1 2 FAHREN_MODEL_SEQUENTIAL (Some 0).

(** A chain of five Dense layers of density 2^30: 2^62 + 2^30 weights. *)
Definition chain : gmap Z FAHRENLayer :=
  <[0 := Layer 1073741824 None FAHREN_LAYER_DENSE]>
  (<[1 := Layer 1073741824 (Some 0) FAHREN_LAYER_DENSE]>
  (<[2 := Layer 1073741824 (Some 1) FAHREN_LAYER_DENSE]>
  (<[3 := Layer 1073741824 (Some 2) FAHREN_LAYER_DENSE]>
  (<[4 := Layer 1073741824 (Some 3) FAHREN_LAYER_DENSE]> ∅)))).

Definition chain_handle : FAHREN :=
  Handle 1 5 FAHREN_MODEL_SEQUENTIAL (Some 0).

(** A single Dense layer whose density was set to -1. *)
Definition negative : gmap Z FAHRENLayer :=
  <[0 := Layer (-1) None FAHREN_LAYER_DENSE]> ∅.

Definition negative_handle : FAHREN :=
  Handle 1 1 FAHREN_MODEL_SEQUENTIAL (Some 0).

Definition blank_handle : FAHREN :=
  Handle 0 0 FAHREN_MODEL_SEQUENTIAL None.

(** Worlds holding these models, with no file and no call made yet. *)
Definition two_dense_world : world := World two_dense ∅ [].
Definition wrapping_world : world := World wrapping ∅ [].
Definition chain_world : world := World chain ∅ [].
Definition empty_world : world := World ∅ ∅ [].

(** The counting loop over a resolved sequence. *)
Fixpoint count_list (ds : list dims) (total_weights total_biases : Z)
  : FAHRENStatus + Z * Z :=
  match ds with
  | [] => inr (total_weights, total_biases)
  | d :: ds' =>
      if machine_weights d >? size_sub SIZE_MAX total_weights
      then inl FAHREN_ERROR_PROCESSING_FAILED
      else if machine_biases d >? size_sub SIZE_MAX total_biases
      then inl FAHREN_ERROR_PROCESSING_FAILED
      else count_list ds' (size_add total_weights (machine_weights d))
                      (size_add total_biases (machine_biases d))
  end.

Definition machine_total_weights (ds : list dims) : Z :=
  Zsum (machine_weights <$> ds).
Definition machine_total_biases (ds : list dims) : Z :=
  Zsum (machine_biases <$> ds).

(** ** Buffers while they are filled *)

(** The cells of a buffer of capacity [cap] whose first cells hold [vs]. *)
Definition partial (vs : list float32) (cap : nat) : list (option float32) :=
  (Some <$> vs) ++ replicate (cap - length vs) None.

(** [weights] and [biases] during the fill: an array filled up to the
    running index, or null when nothing was allocated. *)
Definition holds (buf : buffer) (vs : list float32) (cap : nat) : Prop :=
  (length vs ≤ cap)%nat ∧
  (buf = Some (partial vs cap) ∨ (buf = None ∧ cap = O)).

(** Nothing but the trace changed, and no file was opened. *)
Definition same_state (w w' : world) : Prop :=
  heap w' = heap w ∧ files w' = files w ∧
  opened (trace w') = opened (trace w).

(** A run that made at most one [fopen], on [path], and changed no other
    file. *)
Definition wrote_at_most (path : string) (w w' : world) : Prop :=
  heap w' = heap w ∧
  (same_state w w'
   ∨ (opened (trace w') = path :: opened (trace w)
      ∧ (files w' = files w ∨ ∃ c, files w' = <[path := c]> (files w)))).

(** The number of cells of the buffer allocated for [total] floats. *)
Definition capacity (total : Z) : nat :=
  if 0 <? total
  then Z.to_nat (size_mul total sizeof_float / sizeof_float)
  else O.

(** The stream [f], open on [path], has taken the bytes [sent] so far:
    the file holds the first of them and the stream the others; [fs] is
    the file system when the stream was opened. *)
Definition carries (path : string) (fs : gmap string (list byte))
    (f : stream) (w : world) (sent : list byte) : Prop :=
  stream_path f = path
  ∧ ∃ c, files w = <[path := c]> fs ∧ c ++ buffered f = sent.

(** ** C strings

    A [string] stands for the NUL-terminated C string of its characters. *)

(** [strncmp(s1, s2, n) == 0] *)
Fixpoint strncmp_eq (s1 s2 : string) (n : nat) {struct n} : bool :=
  match n with
  | O => true
  | S n' =>
      match s1, s2 with
      | EmptyString, EmptyString => true
      | String c1 r1, String c2 r2 =>
          if Ascii.eqb c1 c2 then strncmp_eq r1 r2 n' else false
      | _, _ => false
      end
  end.

(** The pointer [s + k], for [k] at most [strlen(s)]. *)
Fixpoint advance (k : nat) (s : string) : string :=
  match k, s with
  | S k', String _ r => advance k' r
  | _, _ => s
  end.

(** ** Allocation of layer arrays and the working directory *)

(** What the platform answers to the calls of [fahren_alloc_layers] and
    [fahren_shutdown]: where [calloc] places a block of that many layers
    (or that it fails), whether [opendir(".")] succeeds, the names
    [readdir] returns until it returns [NULL], and whether [unlink] of a
    name succeeds.  A file of the working directory is kept in [files]
    under its name. *)
Record housekeeping : Type := Housekeeping {
  calloc_place : gmap Z nat -> list event -> Z -> option Z;
  opendir_succeeds : list event -> bool;
  readdir_names : gmap string (list byte) -> list string;
  unlink_succeeds : gmap string (list byte) -> string -> bool
}.

(** [sizeof(FAHRENLayer)]: an [int], a pointer and an [enum], padded. *)
Definition sizeof_layer : Z := 24.

(** A layer of all-zero bytes. *)
Definition zero_layer : FAHRENLayer := Layer 0 None FAHREN_LAYER_DENSE.

(** The [n] cells from [p] on, zeroed ([establish]) or given back
    ([release]). *)
Definition establish (p : Z) (n : nat) (mem : gmap Z FAHRENLayer)
  : gmap Z FAHRENLayer :=
  foldr (fun i m => <[p + Z.of_nat i := zero_layer]> m) mem (seq 0 n).

Definition release (p : Z) (n : nat) (mem : gmap Z FAHRENLayer)
  : gmap Z FAHRENLayer :=
  foldr (fun i m => delete (p + Z.of_nat i) m) mem (seq 0 n).

Section Housekeeping.

Variable plat : housekeeping.

(** [calloc(count, sizeof(FAHRENLayer))]; [blocks] maps the address of
    every live block to its number of layers.  [calloc] fails when the
    byte size is not representable. *)
Definition calloc_layers (count : Z) (blocks : gmap Z nat) (w : world)
  : option addr * gmap Z nat * world :=
  if SIZE_MAX <? count * sizeof_layer
  then (None, blocks, emit (EvMalloc (count * sizeof_layer) false) w)
  else
    match calloc_place plat blocks (trace w) count with
    | Some p =>
        (Some p, <[p := Z.to_nat count]> blocks,
         {| heap := establish p (Z.to_nat count) (heap w);
            files := files w;
            trace := EvMalloc (count * sizeof_layer) true :: trace w |})
    | None => (None, blocks, emit (EvMalloc (count * sizeof_layer) false) w)
    end.

(** [fahren_alloc_layers] *)
Definition fahren_alloc_layers (count : Z) (blocks : gmap Z nat) (w : world)
  : option addr * gmap Z nat * world :=
  if count =? 0 then (None, blocks, w)
  else calloc_layers count blocks w.

(** [free(p)] of a layer array: undefined unless [p] is a live block. *)
Definition free_layers (p : addr) (blocks : gmap Z nat) (w : world)
  : exec (gmap Z nat * world) :=
  match blocks !! p with
  | Some n =>
      Ran (delete p blocks,
           {| heap := release p n (heap w);
              files := files w;
              trace := EvFree true :: trace w |})
  | None => Undef
  end.

(** [unlink(name)]; its result is ignored by the caller. *)
Definition unlink (name : string) (fs : gmap string (list byte))
  : gmap string (list byte) :=
  if unlink_succeeds plat fs name then delete name fs else fs.

(** The body of the [readdir] loop for one entry. *)
Definition cleanup_entry (name : string) (fs : gmap string (list byte))
  : gmap string (list byte) :=
  if negb (strncmp_eq name "fahren_" 7) then fs
  else
    let len := String.length name in
    if (4 <=? len)%nat && String.eqb (advance (len - 4) name) ".bin"
    then fs (* keep binaries *)
    else unlink name fs.

Fixpoint cleanup_loop (entries : list string) (fs : gmap string (list byte))
  : gmap string (list byte) :=
  match entries with
  | [] => fs
  | name :: rest => cleanup_loop rest (cleanup_entry name fs)
  end.

(** [fahren_shutdown] *)
Definition fahren_shutdown (cm : option FAHREN) (blocks : gmap Z nat)
    (w : world) : exec (FAHRENStatus * option FAHREN * gmap Z nat * world) :=
  match cm with
  | None => Ran (FAHREN_ERROR_INVALID_ARGUMENT, cm, blocks, w)
  | Some h =>
      if initialized h =? 0
      then Ran (FAHREN_ERROR_NOT_INITIALIZED, cm, blocks, w)
      else
        (* Free allocated layer array if present *)
        let* (h, blocks, w) :=
          match layers h with
          | Some p =>
              let* (blocks, w) := free_layers p blocks w in
              Ran ({| initialized := initialized h;
                      layer_count := layer_count h;
                      model_type := model_type h; layers := None |},
                   blocks, w)
          | None => Ran (h, blocks, w)
          end in
        (* Reset model state *)
        let h := {| initialized := 0; layer_count := layer_count h;
                    model_type := model_type h; layers := layers h |} in
        let h := {| initialized := initialized h; layer_count := 0;
                    model_type := model_type h; layers := layers h |} in
        let h := {| initialized := initialized h;
                    layer_count := layer_count h;
                    model_type := FAHREN_MODEL_SEQUENTIAL;
                    layers := layers h |} in
        (* Cleanup transient files created by the library *)
        let w :=
          if opendir_succeeds plat (trace w)
          then {| heap := heap w;
                  files := cleanup_loop (readdir_names plat (files w))
                                        (files w);
                  trace := trace w |}
          else w in
        Ran (FAHREN_SUCCESS, Some h, blocks, w)
  end.

End Housekeeping.

(** A platform that places blocks after everything in use, lists the
    files of the directory and lets every [unlink] succeed. *)
Definition tidy : housekeeping :=
  {| calloc_place := fun blocks _ _ =>
       Some (1 + foldr Z.max 0
                   ((fun bn => bn.1 + Z.of_nat bn.2) <$> map_to_list blocks));
     opendir_succeeds := fun _ => true;
     readdir_names := fun fs => (map_to_list fs).*1;
     unlink_succeeds := fun _ _ => true |}.

(** ** Bookkeeping on traces *)

(** Buffers allocated and not yet freed. *)
Definition buffers_held (t : list event) : Z :=
  foldr (fun e n => match e with
                    | EvMalloc _ true => n + 1
                    | EvFree true => n - 1
                    | _ => n
                    end) 0 t.

(** Streams opened and not yet closed. *)
Definition streams_held (t : list event) : Z :=
  foldr (fun e n => match e with
                    | EvFopen _ true => n + 1
                    | EvFclose _ => n - 1
                    | _ => n
                    end) 0 t.

(** The random samples drawn, latest first. *)
Definition samples (t : list event) : list float32 :=
  omap (fun e => match e with EvRandom v => Some v | _ => None end) t.

(** The attempts to allocate. *)
Definition mallocs (t : list event) : list Z :=
  omap (fun e => match e with EvMalloc size _ => Some size | _ => None end) t.

(** A layer whose counts cannot wrap: Dense, with [int] densities that
    are not negative. *)
Definition dense_int (d : dims) : Prop :=
  kind d = FAHREN_LAYER_DENSE
  ∧ 0 ≤ in_dim d ≤ INT_MAX ∧ 0 ≤ out_dim d ≤ INT_MAX.

(** The four readings of a trace together. *)
Definition ledger (t : list event) : Z * Z * list Z * list float32 :=
  (buffers_held t, streams_held t, mallocs t, samples t).

(** [1] for an allocated buffer, [0] for a null one. *)
Definition live (buf : buffer) : Z :=
  match buf with
  | Some _ => 1
  | None => 0
  end.

(** ** More sample platforms and worlds *)

(** A platform on which no file can be opened for writing. *)
Definition readonly : environment :=
  {| malloc_succeeds := fun _ _ => true;
     random_sample := fun _ => 0;
     fopen_succeeds := fun _ _ => false;
     fwrite_accepts := fun _ data => length data;
     written_out := fun _ n => n |}.

(** A platform whose streams take three bytes of every [fwrite], and
    write them through. *)
Definition cramped : environment :=
  {| malloc_succeeds := fun _ _ => true;
     random_sample := fun _ => 0;
     fopen_succeeds := fun _ _ => true;
     fwrite_accepts := fun _ _ => 3%nat;
     written_out := fun _ n => n |}.

(** A working directory with a scratch file, a model binary and a file
    of the user. *)
Definition littered_files : gmap string (list byte) :=
  <["fahren_scratch.tmp"%string := [1]]>
    (<["fahren_initial_model.bin"%string := [2]]>
       (<["notes.txt"%string := [3]]> ∅)).

Definition littered_world : world := World two_dense littered_files [].

(** The [two_dense] array as a live block of two layers. *)
Definition two_dense_blocks : gmap Z nat := <[100 := 2%nat]> ∅.

(** Six Dense layers of density [INT_MAX] in a chain: each count is
    representable, their sum is not. *)
Definition heavy : gmap Z FAHRENLayer :=
  <[0 := Layer 2147483647 None FAHREN_LAYER_DENSE]>
  (<[1 := Layer 2147483647 (Some 0) FAHREN_LAYER_DENSE]>
  (<[2 := Layer 2147483647 (Some 1) FAHREN_LAYER_DENSE]>
  (<[3 := Layer 2147483647 (Some 2) FAHREN_LAYER_DENSE]>
  (<[4 := Layer 2147483647 (Some 3) FAHREN_LAYER_DENSE]>
  (<[5 := Layer 2147483647 (Some 4) FAHREN_LAYER_DENSE]> ∅))))).

Definition heavy_handle : FAHREN :=
  Handle 1 6 FAHREN_MODEL_SEQUENTIAL (Some 0).

Definition heavy_world : world := World heavy ∅ [].

(** An initialized handle without layers. *)
Definition hollow_handle : FAHREN :=
  Handle 1 0 FAHREN_MODEL_SEQUENTIAL None.

(** ** Arithmetic of [size_t] *)

Lemma size_wrap_range z : 0 ≤ size_wrap z ≤ SIZE_MAX.
Proof.
  unfold size_wrap, SIZE_MAX.
  pose proof (Z.mod_pos_bound z (18446744073709551615 + 1) ltac:(lia)). lia.
Qed.

Lemma size_wrap_small z : 0 ≤ z ≤ SIZE_MAX → size_wrap z = z.
Proof. intros H. unfold size_wrap. apply Z.mod_small. lia. Qed.

Lemma size_wrap_mul a b : size_wrap (size_wrap a * size_wrap b) = size_wrap (a * b).
Proof. unfold size_wrap. symmetry. apply Z.mul_mod. unfold SIZE_MAX. lia. Qed.

Lemma size_wrap_mul_l a b : size_wrap (size_wrap a * b) = size_wrap (a * b).
Proof. unfold size_wrap. apply Z.mul_mod_idemp_l. unfold SIZE_MAX. lia. Qed.

Lemma machine_weights_range d : 0 ≤ machine_weights d ≤ SIZE_MAX.
Proof. apply size_wrap_range. Qed.

Lemma machine_biases_range d : 0 ≤ machine_biases d ≤ SIZE_MAX.
Proof. apply size_wrap_range. Qed.

Lemma fits_weights d : fits d → machine_weights d = weight_count d.
Proof.
  intros (Hi & Ho & Hw). apply size_wrap_small. split; [|done].
  unfold weight_count. destruct (kind d); simpl; nia.
Qed.

Lemma fits_biases d : fits d → machine_biases d = bias_count d.
Proof.
  intros (Hi & Ho & Hw). apply size_wrap_small.
  unfold bias_count, INT_MAX, SIZE_MAX in *. lia.
Qed.

Lemma size_wrap_mul_r a b : size_wrap (a * size_wrap b) = size_wrap (a * b).
Proof. unfold size_wrap. apply Z.mul_mod_idemp_r. unfold SIZE_MAX. lia. Qed.

Lemma machine_total_weights_cons d ds :
  machine_total_weights (d :: ds) = machine_weights d + machine_total_weights ds.
Proof. reflexivity. Qed.

Lemma machine_total_biases_cons d ds :
  machine_total_biases (d :: ds) = machine_biases d + machine_total_biases ds.
Proof. reflexivity. Qed.

Lemma machine_total_weights_nonneg ds : 0 ≤ machine_total_weights ds.
Proof.
  induction ds as [|d ds IH]; [done|].
  rewrite machine_total_weights_cons.
  pose proof (machine_weights_range d). lia.
Qed.

Lemma machine_total_biases_nonneg ds : 0 ≤ machine_total_biases ds.
Proof.
  induction ds as [|d ds IH]; [done|].
  rewrite machine_total_biases_cons.
  pose proof (machine_biases_range d). lia.
Qed.

Lemma fits_total_weights ds :
  Forall fits ds → machine_total_weights ds = total_weight_count ds.
Proof.
  induction 1 as [|d ds Hd _ IH]; [done|].
  rewrite machine_total_weights_cons, IH, (fits_weights d) by done.
  reflexivity.
Qed.

Lemma fits_total_biases ds :
  Forall fits ds → machine_total_biases ds = total_bias_count ds.
Proof.
  induction 1 as [|d ds Hd _ IH]; [done|].
  rewrite machine_total_biases_cons, IH, (fits_biases d) by done.
  reflexivity.
Qed.

(** ** The counting loop *)

Lemma layer_counts_resolved mem base i :
  layer_counts mem base i =
  match resolve_layer mem base i with
  | Some d => Ran (machine_weights d, machine_biases d)
  | None => Undef
  end.
Proof.
  unfold resolve_layer, layer_counts, load_layer, machine_weights,
    machine_biases, weight_count, bias_count, size_mul, size_of_int.
  destruct base as [b|]; [|done].
  destruct (mem !! (b + i)) as [l|]; [|done]. simpl.
  destruct (previous_layer l) as [p|]; simpl.
  - rewrite Z.add_0_r. destruct (mem !! p) as [prev|]; simpl; [|done].
    rewrite size_wrap_mul.
    destruct (layer_type l); simpl.
    + by rewrite Z.mul_1_r.
    + by rewrite size_wrap_mul_l.
  - rewrite size_wrap_mul_r.
    destruct (layer_type l); simpl.
    + by rewrite Z.mul_1_r.
    + by rewrite size_wrap_mul_l.
Qed.

Lemma count_loop_resolved mem base n : ∀ i tw tb ds,
  resolve_layers mem base n i = Some ds →
  count_loop mem base n i tw tb = Ran (count_list ds tw tb).
Proof.
  induction n as [|n IH]; intros i tw tb ds; simpl.
  - by intros [= <-].
  - rewrite layer_counts_resolved.
    destruct (resolve_layer mem base i) as [d|]; [|done].
    destruct (resolve_layers mem base n (i + 1)) as [ds'|] eqn:Hds; [|done].
    intros [= <-]. simpl.
    destruct (machine_weights d >? _); [done|].
    destruct (machine_biases d >? _); [done|].
    by apply IH.
Qed.

(** A run of the counting loop that reaches its end has read every layer. *)
Lemma count_loop_reads mem base n : ∀ i tw tb r,
  count_loop mem base n i tw tb = Ran (inr r) →
  ∃ ds, resolve_layers mem base n i = Some ds.
Proof.
  induction n as [|n IH]; intros i tw tb r; simpl.
  - by eexists.
  - rewrite layer_counts_resolved.
    destruct (resolve_layer mem base i) as [d|]; [|done]. simpl.
    destruct (machine_weights d >? _); [done|].
    destruct (machine_biases d >? _); [done|].
    intros H. apply IH in H as [ds ->]. by eexists.
Qed.

(** The loop fails exactly when a running total would pass [SIZE_MAX];
    otherwise it returns the exact sums of the per-layer counts. *)
Lemma count_list_sums ds : ∀ tw tb,
  0 ≤ tw ≤ SIZE_MAX → 0 ≤ tb ≤ SIZE_MAX →
  count_list ds tw tb =
  if bool_decide (tw + machine_total_weights ds ≤ SIZE_MAX
                  ∧ tb + machine_total_biases ds ≤ SIZE_MAX)
  then inr (tw + machine_total_weights ds, tb + machine_total_biases ds)
  else inl FAHREN_ERROR_PROCESSING_FAILED.
Proof.
  induction ds as [|d ds IH]; intros tw tb Htw Htb.
  - unfold machine_total_weights, machine_total_biases. simpl.
    rewrite !Z.add_0_r. by rewrite bool_decide_true by lia.
  - rewrite machine_total_weights_cons, machine_total_biases_cons. simpl.
    pose proof (machine_weights_range d) as Hw.
    pose proof (machine_biases_range d) as Hb.
    pose proof (machine_total_weights_nonneg ds) as Hws.
    pose proof (machine_total_biases_nonneg ds) as Hbs.
    unfold size_sub, size_add.
    rewrite !(size_wrap_small (SIZE_MAX - _)) by lia.
    destruct (Z.gtb_spec (machine_weights d) (SIZE_MAX - tw)).
    { by rewrite bool_decide_false by lia. }
    destruct (Z.gtb_spec (machine_biases d) (SIZE_MAX - tb)).
    { by rewrite bool_decide_false by lia. }
    rewrite !size_wrap_small by lia.
    rewrite IH by lia.
    rewrite !Z.add_assoc.
    reflexivity.
Qed.

(** ** The fill loop *)

Lemma same_state_refl w : same_state w w.
Proof. by repeat split. Qed.

Lemma same_state_trans w1 w2 w3 :
  same_state w1 w2 → same_state w2 w3 → same_state w1 w3.
Proof. intros (?&?&?) (?&?&?). repeat split; congruence. Qed.

Lemma same_state_emit_random v w : same_state w (emit (EvRandom v) w).
Proof. by repeat split. Qed.

Lemma length_partial vs cap :
  (length vs ≤ cap)%nat → length (partial vs cap) = cap.
Proof.
  intros H. unfold partial.
  rewrite length_app, length_fmap, length_replicate. lia.
Qed.

Lemma partial_nil cap : partial [] cap = replicate cap None.
Proof. unfold partial. simpl. by rewrite Nat.sub_0_r. Qed.

Lemma partial_full vs : partial vs (length vs) = Some <$> vs.
Proof. unfold partial. rewrite Nat.sub_diag. simpl. by rewrite app_nil_r. Qed.

Lemma partial_store vs cap v :
  (length vs < cap)%nat →
  <[length vs := Some v]> (partial vs cap) = partial (vs ++ [v]) cap.
Proof.
  intros H. unfold partial.
  rewrite insert_app_r_alt by (rewrite length_fmap; lia).
  rewrite length_fmap, Nat.sub_diag, length_app. simpl.
  replace (cap - length vs)%nat with (S (cap - (length vs + 1))) by lia.
  rewrite fmap_app. simpl. by rewrite <- app_assoc.
Qed.

Section FillLoop.

Variable env : environment.

Lemma fill_slice_frame k : ∀ buf idx w buf' idx' w',
  fill_slice env k buf idx w = Ran (buf', idx', w') → same_state w w'.
Proof.
  induction k as [|k IH]; intros buf idx w buf' idx' w'; simpl.
  - intros [= _ _ <-]. apply same_state_refl.
  - destruct (store buf idx _) as [b|]; [|done]. simpl.
    intros H. apply IH in H.
    eapply same_state_trans; [apply same_state_emit_random|exact H].
Qed.

(** A slice that fits behind the cells already filled is stored in
    bounds and advances the index by its length. *)
Lemma fill_slice_fits cap (Hcap : Z.of_nat cap ≤ SIZE_MAX) k : ∀ buf vs w,
  holds buf vs cap → (length vs + k ≤ cap)%nat →
  ∃ new buf' w',
    fill_slice env k buf (Z.of_nat (length vs)) w
    = Ran (buf', Z.of_nat (length (vs ++ new)), w')
    ∧ holds buf' (vs ++ new) cap ∧ length new = k ∧ same_state w w'.
Proof.
  induction k as [|k IH]; intros buf vs w Hbuf Hk; simpl.
  - exists [], buf, w. rewrite app_nil_r.
    split; [done|]. split; [done|]. split; [done|]. apply same_state_refl.
  - destruct Hbuf as [Hlen [-> | [-> ->]]]; [|lia].
    unfold store. rewrite length_partial by done.
    rewrite bool_decide_true by lia. simpl.
    rewrite Nat2Z.id, partial_store by lia.
    unfold size_add.
    rewrite size_wrap_small by lia.
    replace (Z.of_nat (length vs) + 1) with (Z.of_nat (length (vs ++ [random_sample env (trace w)])))
      by (rewrite length_app; simpl; lia).
    edestruct (IH (Some (partial (vs ++ [random_sample env (trace w)]) cap))
                 (vs ++ [random_sample env (trace w)])
                 (emit (EvRandom (random_sample env (trace w))) w))
      as (new & buf' & w' & Hrun & Hholds & Hnew & Hstate).
    { split; [rewrite length_app; simpl; lia | by left]. }
    { rewrite length_app; simpl; lia. }
    exists (random_sample env (trace w) :: new), buf', w'.
    rewrite <- app_assoc in Hrun, Hholds. simpl in Hrun, Hholds.
    split; [done|]. split; [done|]. split; [simpl; by rewrite Hnew|].
    eapply same_state_trans; [apply same_state_emit_random|exact Hstate].
Qed.

(** A slice longer than the room left stores out of bounds. *)
Lemma fill_slice_overrun cap (Hcap : Z.of_nat cap ≤ SIZE_MAX) k : ∀ buf vs w,
  holds buf vs cap → (cap < length vs + k)%nat →
  fill_slice env k buf (Z.of_nat (length vs)) w = Undef.
Proof.
  induction k as [|k IH]; intros buf vs w [Hlen Hbuf] Hk; simpl; [lia|].
  destruct Hbuf as [-> | [-> ->]]; [|done].
  unfold store. rewrite length_partial by done.
  case_bool_decide as Hidx; [|done]. simpl.
  rewrite Nat2Z.id, partial_store by lia.
  unfold size_add. rewrite size_wrap_small by lia.
  replace (Z.of_nat (length vs) + 1) with (Z.of_nat (length (vs ++ [random_sample env (trace w)])))
    by (rewrite length_app; simpl; lia).
  apply IH.
  - split; [rewrite length_app; simpl; lia | by left].
  - rewrite length_app; simpl; lia.
Qed.

(** One iteration of the fill loop recomputes the Counter's pair. *)
Lemma fill_loop_S base n i wb bb wi bi w :
  fill_loop env base (S n) i wb bb wi bi w =
  match resolve_layer (heap w) base i with
  | None => Undef
  | Some d =>
      let* (wb, wi, w) :=
        fill_slice env (Z.to_nat (machine_weights d)) wb wi w in
      let* (bb, bi, w) :=
        fill_slice env (Z.to_nat (machine_biases d)) bb bi w in
      fill_loop env base n (i + 1) wb bb wi bi w
  end.
Proof.
  cbn [fill_loop].
  unfold resolve_layer, load_layer, machine_weights, machine_biases,
    weight_count, bias_count, size_mul, size_of_int.
  destruct base as [b|]; [|done].
  destruct (heap w !! (b + i)) as [l|]; [|done]. cbn [exec_bind].
  destruct (previous_layer l) as [p|].
  - rewrite Z.add_0_r. destruct (heap w !! p) as [prev|]; [|done].
    cbn [exec_bind in_dim out_dim kind].
    rewrite size_wrap_mul.
    destruct (layer_type l); cbn [kernel_factor].
    + by rewrite Z.mul_1_r.
    + by rewrite size_wrap_mul_l.
  - cbn [exec_bind in_dim out_dim kind].
    rewrite size_wrap_mul_r.
    destruct (layer_type l); cbn [kernel_factor].
    + by rewrite Z.mul_1_r.
    + by rewrite size_wrap_mul_l.
Qed.

Lemma fill_loop_frame base n : ∀ i wb bb wi bi w r w',
  fill_loop env base n i wb bb wi bi w = Ran (r, w') → same_state w w'.
Proof.
  induction n as [|n IH]; intros i wb bb wi bi w r w'.
  - simpl. intros [= _ <-]. apply same_state_refl.
  - rewrite fill_loop_S.
    destruct (resolve_layer (heap w) base i) as [d|]; [|done].
    destruct (fill_slice env _ wb wi w) as [[[wb1 wi1] w1]|] eqn:H1; [|done].
    cbn [exec_bind].
    destruct (fill_slice env _ bb bi w1) as [[[bb2 bi2] w2]|] eqn:H2; [|done].
    cbn [exec_bind]. intros H.
    apply fill_slice_frame in H1. apply fill_slice_frame in H2. apply IH in H.
    eauto using same_state_trans.
Qed.

Section Capacities.

Variables wcap bcap : nat.
Hypothesis Hwcap : Z.of_nat wcap ≤ SIZE_MAX.
Hypothesis Hbcap : Z.of_nat bcap ≤ SIZE_MAX.

(** When both buffers have room for what the Counter counted, every store
    is in bounds and the indices advance by exactly the totals. *)
Lemma fill_loop_fits base n : ∀ i ds wb bb wvs bvs w,
  resolve_layers (heap w) base n i = Some ds →
  holds wb wvs wcap → holds bb bvs bcap →
  Z.of_nat (length wvs) + machine_total_weights ds ≤ Z.of_nat wcap →
  Z.of_nat (length bvs) + machine_total_biases ds ≤ Z.of_nat bcap →
  ∃ wnew bnew wb' bb' w',
    fill_loop env base n i wb bb (Z.of_nat (length wvs))
              (Z.of_nat (length bvs)) w
    = Ran (wb', bb', Z.of_nat (length (wvs ++ wnew)),
           Z.of_nat (length (bvs ++ bnew)), w')
    ∧ holds wb' (wvs ++ wnew) wcap ∧ holds bb' (bvs ++ bnew) bcap
    ∧ Z.of_nat (length wnew) = machine_total_weights ds
    ∧ Z.of_nat (length bnew) = machine_total_biases ds
    ∧ same_state w w'.
Proof.
  induction n as [|n IH]; intros i ds wb bb wvs bvs w Hds Hwb Hbb Hw Hb.
  - simpl in Hds. injection Hds as <-.
    exists [], [], wb, bb, w. rewrite !app_nil_r. simpl.
    split; [done|]. split; [done|]. split; [done|].
    split; [done|]. split; [done|]. apply same_state_refl.
  - rewrite fill_loop_S. simpl in Hds.
    destruct (resolve_layer (heap w) base i) as [d|]; [|done].
    destruct (resolve_layers (heap w) base n (i + 1)) as [ds'|] eqn:Hds';
      [|done].
    injection Hds as <-.
    rewrite machine_total_weights_cons in Hw |- *.
    rewrite machine_total_biases_cons in Hb |- *.
    pose proof (machine_weights_range d) as Hdw.
    pose proof (machine_biases_range d) as Hdb.
    pose proof (machine_total_weights_nonneg ds') as Hws.
    pose proof (machine_total_biases_nonneg ds') as Hbs.
    destruct (fill_slice_fits wcap Hwcap (Z.to_nat (machine_weights d)) wb wvs w)
      as (wn1 & wb1 & w1 & -> & Hwb1 & Hwn1 & Hs1); [done|lia|].
    cbn [exec_bind].
    destruct (fill_slice_fits bcap Hbcap (Z.to_nat (machine_biases d)) bb bvs w1)
      as (bn1 & bb1 & w2 & -> & Hbb1 & Hbn1 & Hs2); [done|lia|].
    cbn [exec_bind].
    assert (heap w2 = heap w) as Hheap.
    { destruct Hs1 as [? _], Hs2 as [? _]. congruence. }
    destruct (IH (i + 1) ds' wb1 bb1 (wvs ++ wn1) (bvs ++ bn1) w2)
      as (wn2 & bn2 & wb2 & bb2 & w3 & -> & Hwb2 & Hbb2 & Hwn2 & Hbn2 & Hs3).
    { by rewrite Hheap. }
    { done. }
    { done. }
    { rewrite length_app. lia. }
    { rewrite length_app. lia. }
    exists (wn1 ++ wn2), (bn1 ++ bn2), wb2, bb2, w3.
    rewrite !app_assoc.
    split; [done|]. split; [done|]. split; [done|].
    split; [rewrite length_app; lia|].
    split; [rewrite length_app; lia|].
    eauto using same_state_trans.
Qed.

(** When a buffer is smaller than what the Counter counted, a store
    lands out of bounds. *)
Lemma fill_loop_overrun base n : ∀ i ds wb bb wvs bvs w,
  resolve_layers (heap w) base n i = Some ds →
  holds wb wvs wcap → holds bb bvs bcap →
  Z.of_nat wcap < Z.of_nat (length wvs) + machine_total_weights ds
  ∨ Z.of_nat bcap < Z.of_nat (length bvs) + machine_total_biases ds →
  fill_loop env base n i wb bb (Z.of_nat (length wvs))
            (Z.of_nat (length bvs)) w = Undef.
Proof.
  induction n as [|n IH]; intros i ds wb bb wvs bvs w Hds Hwb Hbb Hover.
  - simpl in Hds. injection Hds as <-.
    unfold machine_total_weights, machine_total_biases in Hover.
    simpl in Hover. destruct Hwb as [? _], Hbb as [? _]. lia.
  - rewrite fill_loop_S. simpl in Hds.
    destruct (resolve_layer (heap w) base i) as [d|]; [|done].
    destruct (resolve_layers (heap w) base n (i + 1)) as [ds'|] eqn:Hds';
      [|done].
    injection Hds as <-.
    rewrite machine_total_weights_cons, machine_total_biases_cons in Hover.
    pose proof (machine_weights_range d) as Hdw.
    pose proof (machine_biases_range d) as Hdb.
    destruct (decide (length wvs + Z.to_nat (machine_weights d) ≤ wcap)%nat)
      as [Hfw|Hfw].
    2: { rewrite (fill_slice_overrun wcap Hwcap); [done|done|lia]. }
    destruct (fill_slice_fits wcap Hwcap (Z.to_nat (machine_weights d)) wb wvs w)
      as (wn1 & wb1 & w1 & -> & Hwb1 & Hwn1 & Hs1); [done|lia|].
    cbn [exec_bind].
    destruct (decide (length bvs + Z.to_nat (machine_biases d) ≤ bcap)%nat)
      as [Hfb|Hfb].
    2: { rewrite (fill_slice_overrun bcap Hbcap); [done|done|lia]. }
    destruct (fill_slice_fits bcap Hbcap (Z.to_nat (machine_biases d)) bb bvs w1)
      as (bn1 & bb1 & w2 & -> & Hbb1 & Hbn1 & Hs2); [done|lia|].
    cbn [exec_bind].
    assert (heap w2 = heap w) as Hheap.
    { destruct Hs1 as [? _], Hs2 as [? _]. congruence. }
    apply (IH (i + 1) ds'); [by rewrite Hheap|done|done|].
    rewrite !length_app. lia.
Qed.

End Capacities.

End FillLoop.

(** ** Library calls and the blob writer *)

Lemma le_bytes_length n : ∀ z, length (le_bytes n z) = n.
Proof. induction n as [|n IH]; intros z; simpl; [done|]. by rewrite IH. Qed.

Lemma float_bytes_length vs :
  Z.of_nat (length (float_bytes vs)) = 4 * Z.of_nat (length vs).
Proof.
  unfold float_bytes. induction vs as [|v vs IH]; [done|].
  cbn [map concat]. rewrite length_app, le_bytes_length.
  cbn [length]. lia.
Qed.

Lemma blob_length tw tb ws bs :
  Z.of_nat (length (blob tw tb ws bs))
  = 32 + 4 * Z.of_nat (length ws) + 4 * Z.of_nat (length bs).
Proof.
  unfold blob, blob_header. cbn [concat].
  rewrite !length_app, !le_bytes_length, !Nat2Z.inj_add, !float_bytes_length.
  cbn [length]. lia.
Qed.

(** Reading back a little-endian field gives the value written. *)
Lemma le_value_le_bytes n : ∀ z,
  0 ≤ z < 256 ^ Z.of_nat n → le_value (le_bytes n z) = z.
Proof.
  induction n as [|n IH]; intros z Hz.
  - simpl in *. lia.
  - cbn [le_bytes]. unfold le_value in *. cbn [foldr].
    rewrite IH.
    + pose proof (Z.div_mod z 256). lia.
    + rewrite Nat2Z.inj_succ, Z.pow_succ_r in Hz by lia.
      split; [apply Z.div_pos; lia|].
      apply Z.div_lt_upper_bound; lia.
Qed.

Lemma read_floats_length buf count vs :
  0 ≤ count → read_floats buf count = Ran vs → Z.of_nat (length vs) = count.
Proof.
  unfold read_floats. intros Hc.
  destruct buf as [cells|]; [|done].
  case_bool_decide as Hlen; [|done].
  destruct (mapM id (take (Z.to_nat count) cells)) as [vs'|] eqn:Hm; [|done].
  intros [= <-]. apply length_mapM in Hm.
  rewrite <- Hm, length_take_le by lia. lia.
Qed.

Lemma read_floats_full vs :
  read_floats (Some (Some <$> vs)) (Z.of_nat (length vs)) = Ran vs.
Proof.
  unfold read_floats. rewrite length_fmap, bool_decide_true by lia.
  rewrite Nat2Z.id, take_ge by (rewrite length_fmap; lia).
  by rewrite mapM_fmap_Some.
Qed.

(** ** Bookkeeping of a write *)

Lemma ledger_parts t1 t2 :
  ledger t1 = ledger t2 →
  buffers_held t1 = buffers_held t2 ∧ streams_held t1 = streams_held t2
  ∧ mallocs t1 = mallocs t2 ∧ samples t1 = samples t2.
Proof. unfold ledger. by intros [= -> -> -> ->]. Qed.

Lemma free_trace buf w :
  buffers_held (trace (free buf w)) = buffers_held (trace w) - live buf
  ∧ streams_held (trace (free buf w)) = streams_held (trace w)
  ∧ mallocs (trace (free buf w)) = mallocs (trace w)
  ∧ samples (trace (free buf w)) = samples (trace w).
Proof.
  unfold free, buffers_held, streams_held, mallocs, samples.
  destruct buf as [cells|]; cbn [emit trace live].
  - rewrite bool_decide_true by eauto. cbn. repeat split; lia || done.
  - rewrite bool_decide_false by apply is_Some_None. cbn.
    repeat split; lia || done.
Qed.

Lemma read_floats_partial vs cap :
  (length vs ≤ cap)%nat →
  read_floats (Some (partial vs cap)) (Z.of_nat (length vs)) = Ran vs.
Proof.
  intros Hlen. unfold read_floats.
  rewrite length_partial, bool_decide_true by lia.
  unfold partial.
  rewrite Nat2Z.id, take_app_length' by (by rewrite length_fmap).
  by rewrite mapM_fmap_Some.
Qed.

Section Bookkeeping.

Variable env : environment.

Lemma fill_slice_trace k : ∀ buf idx w buf' idx' w',
  fill_slice env k buf idx w = Ran (buf', idx', w') →
  buffers_held (trace w') = buffers_held (trace w)
  ∧ streams_held (trace w') = streams_held (trace w)
  ∧ mallocs (trace w') = mallocs (trace w)
  ∧ live buf' = live buf.
Proof.
  induction k as [|k IH]; intros buf idx w buf' idx' w'; simpl.
  - by intros [= <- _ <-].
  - unfold store. destruct buf as [cells|]; [|done].
    case_bool_decide; [|done]. cbn [exec_bind].
    intros (Hb & Hs & Hm & Hl)%IH. cbn in Hb, Hs, Hm, Hl. done.
Qed.

Lemma fill_loop_trace base n : ∀ i wb bb wi bi w wb' bb' wi' bi' w',
  fill_loop env base n i wb bb wi bi w = Ran (wb', bb', wi', bi', w') →
  buffers_held (trace w') = buffers_held (trace w)
  ∧ streams_held (trace w') = streams_held (trace w)
  ∧ mallocs (trace w') = mallocs (trace w)
  ∧ live wb' = live wb ∧ live bb' = live bb.
Proof.
  induction n as [|n IH]; intros i wb bb wi bi w wb' bb' wi' bi' w'.
  - simpl. by intros [= <- <- _ _ <-].
  - rewrite fill_loop_S.
    destruct (resolve_layer (heap w) base i) as [d|]; [|done].
    destruct (fill_slice env _ wb wi w) as [[[wb1 wi1] w1]|] eqn:H1; [|done].
    cbn [exec_bind].
    destruct (fill_slice env _ bb bi w1) as [[[bb2 bi2] w2]|] eqn:H2; [|done].
    cbn [exec_bind]. intros H.
    apply fill_slice_trace in H1 as (?&?&?&?).
    apply fill_slice_trace in H2 as (?&?&?&?).
    apply IH in H as (?&?&?&?&?).
    repeat split; congruence.
Qed.

(** A slice that fits stores the samples it draws, in the order drawn. *)
Lemma fill_slice_drawn cap (Hcap : Z.of_nat cap ≤ SIZE_MAX) k : ∀ buf vs w,
  holds buf vs cap → (length vs + k ≤ cap)%nat →
  ∃ new buf' w',
    fill_slice env k buf (Z.of_nat (length vs)) w
    = Ran (buf', Z.of_nat (length (vs ++ new)), w')
    ∧ holds buf' (vs ++ new) cap ∧ length new = k
    ∧ samples (trace w') = reverse new ++ samples (trace w)
    ∧ heap w' = heap w.
Proof.
  induction k as [|k IH]; intros buf vs w Hbuf Hk; simpl.
  - exists [], buf, w. rewrite app_nil_r.
    split; [done|]. split; [done|]. split; [done|]. by split.
  - destruct Hbuf as [Hlen [-> | [-> ->]]]; [|lia].
    unfold store. rewrite length_partial by done.
    rewrite bool_decide_true by lia. simpl.
    rewrite Nat2Z.id, partial_store by lia.
    unfold size_add.
    rewrite size_wrap_small by lia.
    set (v := random_sample env (trace w)).
    replace (Z.of_nat (length vs) + 1) with (Z.of_nat (length (vs ++ [v])))
      by (rewrite length_app; simpl; lia).
    edestruct (IH (Some (partial (vs ++ [v]) cap)) (vs ++ [v])
                 (emit (EvRandom v) w))
      as (new & buf' & w' & Hrun & Hholds & Hnew & Hsam & Hheap).
    { split; [rewrite length_app; simpl; lia | by left]. }
    { rewrite length_app; simpl; lia. }
    exists (v :: new), buf', w'.
    rewrite <- app_assoc in Hrun, Hholds. simpl in Hrun, Hholds.
    split; [done|]. split; [done|]. split; [simpl; by rewrite Hnew|].
    split; [|done].
    rewrite Hsam, reverse_cons, <- app_assoc. done.
Qed.

Section Drawn.

Variables wcap bcap : nat.
Hypothesis Hwcap : Z.of_nat wcap ≤ SIZE_MAX.
Hypothesis Hbcap : Z.of_nat bcap ≤ SIZE_MAX.

(** The fill loop, when the buffers have room: what it stores in each
    buffer is a rearrangement of the samples it drew. *)
Lemma fill_loop_drawn base n : ∀ i ds wb bb wvs bvs w,
  resolve_layers (heap w) base n i = Some ds →
  holds wb wvs wcap → holds bb bvs bcap →
  Z.of_nat (length wvs) + machine_total_weights ds ≤ Z.of_nat wcap →
  Z.of_nat (length bvs) + machine_total_biases ds ≤ Z.of_nat bcap →
  ∃ wnew bnew wb' bb' w',
    fill_loop env base n i wb bb (Z.of_nat (length wvs))
              (Z.of_nat (length bvs)) w
    = Ran (wb', bb', Z.of_nat (length (wvs ++ wnew)),
           Z.of_nat (length (bvs ++ bnew)), w')
    ∧ holds wb' (wvs ++ wnew) wcap ∧ holds bb' (bvs ++ bnew) bcap
    ∧ Z.of_nat (length wnew) = machine_total_weights ds
    ∧ Z.of_nat (length bnew) = machine_total_biases ds
    ∧ samples (trace w') ≡ₚ wnew ++ bnew ++ samples (trace w)
    ∧ heap w' = heap w.
Proof.
  induction n as [|n IH]; intros i ds wb bb wvs bvs w Hds Hwb Hbb Hw Hb.
  - simpl in Hds. injection Hds as <-.
    exists [], [], wb, bb, w. rewrite !app_nil_r. simpl.
    split; [done|]. split; [done|]. split; [done|].
    split; [done|]. split; [done|]. by split.
  - rewrite fill_loop_S. simpl in Hds.
    destruct (resolve_layer (heap w) base i) as [d|]; [|done].
    destruct (resolve_layers (heap w) base n (i + 1)) as [ds'|] eqn:Hds';
      [|done].
    injection Hds as <-.
    rewrite machine_total_weights_cons in Hw |- *.
    rewrite machine_total_biases_cons in Hb |- *.
    pose proof (machine_weights_range d) as Hdw.
    pose proof (machine_biases_range d) as Hdb.
    pose proof (machine_total_weights_nonneg ds') as Hws.
    pose proof (machine_total_biases_nonneg ds') as Hbs.
    destruct (fill_slice_drawn wcap Hwcap (Z.to_nat (machine_weights d)) wb wvs w)
      as (wn1 & wb1 & w1 & -> & Hwb1 & Hwn1 & Hsam1 & Hh1); [done|lia|].
    cbn [exec_bind].
    destruct (fill_slice_drawn bcap Hbcap (Z.to_nat (machine_biases d)) bb bvs w1)
      as (bn1 & bb1 & w2 & -> & Hbb1 & Hbn1 & Hsam2 & Hh2); [done|lia|].
    cbn [exec_bind].
    assert (heap w2 = heap w) as Hheap by congruence.
    destruct (IH (i + 1) ds' wb1 bb1 (wvs ++ wn1) (bvs ++ bn1) w2)
      as (wn2 & bn2 & wb2 & bb2 & w3 & -> & Hwb2 & Hbb2 & Hwn2 & Hbn2
          & Hsam3 & Hh3).
    { by rewrite Hheap. }
    { done. }
    { done. }
    { rewrite length_app. lia. }
    { rewrite length_app. lia. }
    exists (wn1 ++ wn2), (bn1 ++ bn2), wb2, bb2, w3.
    rewrite !app_assoc.
    split; [done|]. split; [done|]. split; [done|].
    split; [rewrite length_app; lia|].
    split; [rewrite length_app; lia|].
    split; [|congruence].
    rewrite Hsam3, Hsam2, Hsam1, !reverse_Permutation.
    solve_Permutation.
Qed.

End Drawn.

End Bookkeeping.

(** ** What reaches the file *)

Section Writer.

Variable env : environment.

Lemma malloc_frame size w : same_state w (malloc env size w).2.
Proof. unfold malloc. by destruct (malloc_succeeds env _ _). Qed.

Lemma free_frame buf w : same_state w (free buf w).
Proof. done. Qed.

(** Writing out moves bytes from the stream to the file, in order. *)
Lemma write_out_carries path fs f w sent f' w' :
  carries path fs f w sent →
  write_out env f w = (f', w') →
  carries path fs f' w' sent ∧ trace w' = trace w ∧ heap w' = heap w
  ∧ ((length (buffered f)
      ≤ written_out env (trace w) (length (buffered f)))%nat →
     files w' = <[path := sent]> fs).
Proof.
  intros (Hp & c & Hf & Hs). unfold write_out, carries. intros [= <- <-].
  cbn [stream_path buffered files trace heap].
  rewrite Hp, Hf, alter_insert_eq.
  split; [|split; [done|split; [done|]]].
  - split; [done|]. eexists. split; [done|].
    by rewrite <- app_assoc, take_drop.
  - intros Hall. by rewrite take_ge, Hs.
Qed.

Lemma fwrite_carries path fs f data w sent ok f' w' :
  carries path fs f w sent →
  fwrite env f data w = (ok, f', w') →
  ∃ d, carries path fs f' w' (sent ++ d)
       ∧ d `prefix_of` data
       ∧ (ok = true → d = data)
       ∧ ledger (trace w') = ledger (trace w)
       ∧ heap w' = heap w
       ∧ opened (trace w') = opened (trace w).
Proof.
  intros (Hp & c & Hf & Hs). unfold fwrite. cbv zeta.
  destruct (write_out env _ _) as [f1 w1] eqn:Hwo.
  cbn [fst snd]. intros [= <- <- <-].
  eapply (write_out_carries path fs _ _
            (sent ++ take (fwrite_accepts env (trace w) data) data))
    in Hwo as (Hc1 & Ht & Hh & _).
  2: { split; [done|]. exists c. cbn [emit files buffered].
       split; [done|]. by rewrite app_assoc, Hs. }
  eexists. split; [exact Hc1|]. split; [apply prefix_take|].
  split; [intros Hok%bool_decide_eq_true; by rewrite take_ge|].
  rewrite Ht, Hh. by repeat split.
Qed.

Lemma fwrite_each_carries path fs chunks : ∀ f w sent ok f' w',
  carries path fs f w sent →
  fwrite_each env f chunks w = (ok, f', w') →
  ∃ d, carries path fs f' w' (sent ++ d)
       ∧ d `prefix_of` concat chunks
       ∧ (ok = true → d = concat chunks)
       ∧ ledger (trace w') = ledger (trace w)
       ∧ heap w' = heap w
       ∧ opened (trace w') = opened (trace w).
Proof.
  induction chunks as [|x chunks IH]; intros f w sent ok f' w' Hc.
  - intros [= <- <- <-]. exists []. rewrite app_nil_r.
    split; [exact Hc|]. by repeat split.
  - cbn [fwrite_each concat].
    destruct (fwrite env f x w) as [[ok1 f1] w1] eqn:H1.
    destruct (fwrite_carries _ _ _ _ _ _ _ _ _ Hc H1)
      as (d1 & Hc1 & Hp1 & Hok1 & Hl1 & Hh1 & Ho1).
    destruct ok1.
    + intros H2.
      destruct (IH _ _ _ _ _ _ Hc1 H2)
        as (d2 & Hc2 & Hp2 & Hok2 & Hl2 & Hh2 & Ho2).
      exists (d1 ++ d2). rewrite app_assoc.
      split; [done|]. rewrite (Hok1 eq_refl).
      split; [by apply prefix_app|].
      split; [intros Hok; by rewrite (Hok2 Hok)|].
      repeat split; congruence.
    + intros [= <- <- <-]. exists d1. split; [done|].
      split; [by apply prefix_app_r|]. by repeat split.
Qed.

Lemma fwrite_floats_carries path fs f buf count w sent ok f' w' :
  0 ≤ count →
  carries path fs f w sent →
  fwrite_floats env f buf count w = Ran (ok, f', w') →
  ∃ d vs, carries path fs f' w' (sent ++ d)
          ∧ d `prefix_of` float_bytes vs
          ∧ Z.of_nat (length vs) = count
          ∧ (ok = true →
             d = float_bytes vs ∧ (0 < count → read_floats buf count = Ran vs))
          ∧ ledger (trace w') = ledger (trace w)
          ∧ heap w' = heap w
          ∧ opened (trace w') = opened (trace w).
Proof.
  intros Hcount Hc. unfold fwrite_floats.
  destruct (Z.ltb_spec 0 count).
  - destruct (read_floats buf count) as [vs|] eqn:Hr; [|done].
    cbn [exec_bind]. intros Hrun.
    assert (fwrite env f (float_bytes vs) w = (ok, f', w')) as H1
      by congruence.
    destruct (fwrite_carries _ _ _ _ _ _ _ _ _ Hc H1)
      as (d & Hc1 & Hp1 & Hok1 & Hl1 & Hh1 & Ho1).
    exists d, vs. split; [done|]. split; [done|].
    split; [by eapply read_floats_length|].
    split; [|done]. intros Hok. by split; [apply Hok1|].
  - intros [= <- <- <-]. exists [], []. rewrite app_nil_r.
    split; [done|]. split; [done|]. split; [simpl; lia|].
    split; [|done]. intros _. split; [done|lia].
Qed.

(** [fclose]: a part of what the stream has taken is in the file, all of
    it when [fclose] does not fail. *)
Lemma fclose_carries path fs f w sent :
  carries path fs f w sent →
  ∃ c, files (fclose env f w) = <[path := c]> fs
       ∧ c `prefix_of` sent
       ∧ (closes_cleanly env → c = sent)
       ∧ heap (fclose env f w) = heap w
       ∧ trace (fclose env f w) = EvFclose path :: trace w.
Proof.
  intros Hc. unfold fclose.
  destruct (write_out env f (emit (EvFclose (stream_path f)) w))
    as [f1 w1] eqn:Hwo.
  assert (carries path fs f (emit (EvFclose (stream_path f)) w) sent) as Hc0
    by exact Hc.
  destruct (write_out_carries _ _ _ _ _ _ _ Hc0 Hwo)
    as ((Hp & c & Hf & Hs) & Ht & Hh & Hall).
  exists c. cbn [snd]. split; [done|].
  split; [rewrite <- Hs; by apply prefix_app_r|].
  split.
  { intros Hclean. cbn [emit trace] in Hall.
    specialize (Hall (Hclean _ _ _)). rewrite Hf in Hall.
    apply (f_equal (lookup path)) in Hall.
    rewrite !lookup_insert_eq in Hall. by injection Hall. }
  split; [done|]. rewrite Ht. cbn [emit trace]. by destruct Hc as [-> _].
Qed.

(** The common end of every path that has opened the stream:
    [fclose(f); free(weights); free(biases);]. *)
Lemma close_and_free path fs f wb bb w sent :
  carries path fs f w sent →
  heap (free bb (free wb (fclose env f w))) = heap w
  ∧ opened (trace (free bb (free wb (fclose env f w)))) = opened (trace w)
  ∧ buffers_held (trace (free bb (free wb (fclose env f w))))
    = buffers_held (trace w) - live wb - live bb
  ∧ streams_held (trace (free bb (free wb (fclose env f w))))
    = streams_held (trace w) - 1
  ∧ mallocs (trace (free bb (free wb (fclose env f w)))) = mallocs (trace w)
  ∧ samples (trace (free bb (free wb (fclose env f w)))) = samples (trace w)
  ∧ ∃ c, files (free bb (free wb (fclose env f w))) = <[path := c]> fs
         ∧ c `prefix_of` sent
         ∧ (closes_cleanly env → c = sent).
Proof.
  intros Hc.
  destruct (fclose_carries _ _ _ _ _ Hc) as (c & Hf & Hpre & Hclean & Hh & Ht).
  destruct (free_trace wb (fclose env f w)) as (Hbw & Hsw & Hmw & Hdw).
  destruct (free_trace bb (free wb (fclose env f w)))
    as (Hbb & Hsb & Hmb & Hdb).
  rewrite Hbb, Hbw, Hsb, Hsw, Hmb, Hmw, Hdb, Hdw.
  cbn [free emit heap files trace opened omap]. rewrite Ht.
  split; [done|]. split; [done|].
  split; [unfold buffers_held; cbn; lia|].
  split; [unfold streams_held; cbn; lia|].
  split; [done|]. split; [done|].
  by exists c.
Qed.

Lemma fwrite_cooperative f data w :
  cooperative env → (fwrite env f data w).1.1 = true.
Proof.
  intros (_ & _ & Hfw). unfold fwrite. cbv zeta. cbn [fst].
  rewrite Hfw. by apply bool_decide_eq_true.
Qed.

Lemma fwrite_each_cooperative chunks : ∀ f w,
  cooperative env → (fwrite_each env f chunks w).1.1 = true.
Proof.
  intros f w Hco. revert f w.
  induction chunks as [|d chunks IH]; intros f w; [done|].
  cbn [fwrite_each].
  pose proof (fwrite_cooperative f d w Hco) as H1.
  destruct (fwrite env f d w) as [[ok1 f1] w1]. cbn [fst] in H1. subst ok1.
  apply IH.
Qed.

(** Everything [write_blob] does, on each of its exit paths. *)
Lemma write_blob_anatomy path tw tb wb bb w st w' :
  0 ≤ tw → 0 ≤ tb →
  write_blob env path tw tb wb bb w = Ran (st, w') →
  (st = FAHREN_SUCCESS ∨ st = FAHREN_ERROR_PROCESSING_FAILED)
  ∧ heap w' = heap w
  ∧ opened (trace w') = path :: opened (trace w)
  ∧ buffers_held (trace w') = buffers_held (trace w) - live wb - live bb
  ∧ streams_held (trace w') = streams_held (trace w)
  ∧ mallocs (trace w') = mallocs (trace w)
  ∧ samples (trace w') = samples (trace w)
  ∧ if fopen_succeeds env (trace w) path
    then ∃ c ws bs,
           files w' = <[path := c]> (files w)
           ∧ c `prefix_of` blob tw tb ws bs
           ∧ Z.of_nat (length ws) = tw ∧ Z.of_nat (length bs) = tb
           ∧ (st = FAHREN_SUCCESS →
              (closes_cleanly env → c = blob tw tb ws bs)
              ∧ (0 < tw → read_floats wb tw = Ran ws)
              ∧ (0 < tb → read_floats bb tb = Ran bs))
    else st = FAHREN_ERROR_PROCESSING_FAILED ∧ files w' = files w.
Proof.
  intros Htw Htb. unfold write_blob, fopen_wb, io_error.
  assert (∀ n : Z, 0 ≤ n →
            Z.of_nat (length (replicate (Z.to_nat n) (0 : float32))) = n)
    as Hpad by (intros n Hn; rewrite length_replicate; lia).
  destruct (fopen_succeeds env (trace w) path).
  2: { intros [= <- <-].
       destruct (free_trace wb (emit (EvFopen path false) w))
         as (Hb1 & Hs1 & Hm1 & Hd1).
       destruct (free_trace bb (free wb (emit (EvFopen path false) w)))
         as (Hb2 & Hs2 & Hm2 & Hd2).
       split; [by right|]. rewrite Hb2, Hb1, Hs2, Hs1, Hm2, Hm1, Hd2, Hd1.
       by repeat split. }
  set (w1 := {| heap := heap w; files := <[path:=[]]> (files w);
                trace := EvFopen path true :: trace w |}).
  assert (carries path (files w) (Stream path []) w1 []) as Hc1.
  { split; [done|]. by exists []. }
  assert (heap w1 = heap w) as Hh1 by done.
  assert (opened (trace w1) = path :: opened (trace w)) as Ho1 by done.
  assert (buffers_held (trace w1) = buffers_held (trace w)) as Hb1 by done.
  assert (streams_held (trace w1) = streams_held (trace w) + 1) as Hs1 by done.
  assert (mallocs (trace w1) = mallocs (trace w)) as Hm1 by done.
  assert (samples (trace w1) = samples (trace w)) as Hd1 by done.
  destruct (fwrite_each env (Stream path []) (blob_header tw tb) w1)
    as [[ok2 f2] w2] eqn:H2.
  destruct (fwrite_each_carries _ _ _ _ _ _ _ _ _ Hc1 H2)
    as (d2 & Hc2 & Hp2 & Hok2 & Hl2 & Hh2 & Ho2).
  rewrite app_nil_l in Hc2.
  apply ledger_parts in Hl2 as (Hlb2 & Hls2 & Hlm2 & Hld2).
  destruct ok2; cbn [negb].
  2: { intros [= <- <-].
       destruct (close_and_free path (files w) f2 wb bb w2 d2 Hc2)
         as (Hh & Ho & Hb & Hs & Hm & Hd & c & Hf & Hpre & _).
       split; [by right|]. split; [congruence|]. split; [congruence|].
       split; [lia|]. split; [lia|]. split; [congruence|].
       split; [congruence|].
       exists c, (replicate (Z.to_nat tw) 0), (replicate (Z.to_nat tb) 0).
       split; [done|].
       split; [etrans; [exact Hpre|]; by apply prefix_app_r|].
       split; [by apply Hpad|]. split; [by apply Hpad|done]. }
  rewrite (Hok2 eq_refl) in Hc2. clear Hp2 Hok2 d2.
  destruct (fwrite_floats env f2 wb tw w2) as [[[ok3 f3] w3]|] eqn:H3; [|done].
  destruct (fwrite_floats_carries _ _ _ _ _ _ _ _ _ _ Htw Hc2 H3)
    as (d3 & ws & Hc3 & Hp3 & Hws & Hok3 & Hl3 & Hh3 & Ho3).
  apply ledger_parts in Hl3 as (Hlb3 & Hls3 & Hlm3 & Hld3).
  cbn [exec_bind]. destruct ok3; cbn [negb].
  2: { intros [= <- <-].
       destruct (close_and_free path (files w) f3 wb bb w3 _ Hc3)
         as (Hh & Ho & Hb & Hs & Hm & Hd & c & Hf & Hpre & _).
       split; [by right|]. split; [congruence|]. split; [congruence|].
       split; [lia|]. split; [lia|]. split; [congruence|].
       split; [congruence|].
       exists c, ws, (replicate (Z.to_nat tb) 0).
       split; [done|]. unfold blob.
       split; [etrans; [exact Hpre|]; by apply prefix_app, prefix_app_r|].
       split; [done|]. split; [by apply Hpad|done]. }
  destruct (Hok3 eq_refl) as [-> Hread3].
  destruct (fwrite_floats env f3 bb tb w3) as [[[ok4 f4] w4]|] eqn:H4; [|done].
  destruct (fwrite_floats_carries _ _ _ _ _ _ _ _ _ _ Htb Hc3 H4)
    as (d4 & bs & Hc4 & Hp4 & Hbs & Hok4 & Hl4 & Hh4 & Ho4).
  apply ledger_parts in Hl4 as (Hlb4 & Hls4 & Hlm4 & Hld4).
  cbn [exec_bind]. destruct ok4; cbn [negb].
  2: { intros [= <- <-].
       destruct (close_and_free path (files w) f4 wb bb w4 _ Hc4)
         as (Hh & Ho & Hb & Hs & Hm & Hd & c & Hf & Hpre & _).
       split; [by right|]. split; [congruence|]. split; [congruence|].
       split; [lia|]. split; [lia|]. split; [congruence|].
       split; [congruence|].
       exists c, ws, bs.
       split; [done|]. unfold blob. rewrite <- app_assoc in Hpre.
       split; [etrans; [exact Hpre|]; by do 2 apply prefix_app|].
       split; [done|]. split; [done|done]. }
  destruct (Hok4 eq_refl) as [-> Hread4].
  intros [= <- <-].
  destruct (close_and_free path (files w) f4 wb bb w4 _ Hc4)
    as (Hh & Ho & Hb & Hs & Hm & Hd & c & Hf & Hpre & Hclean).
  split; [by left|]. split; [congruence|]. split; [congruence|].
  split; [lia|]. split; [lia|]. split; [congruence|].
  split; [congruence|].
  exists c, ws, bs. unfold blob. rewrite <- app_assoc in Hpre, Hclean.
  split; [done|]. split; [done|]. split; [done|]. split; [done|].
  intros _. done.
Qed.

Lemma write_blob_succeeds path tw tb wb bb w :
  cooperative env →
  (0 < tw → ∃ ws, read_floats wb tw = Ran ws) →
  (0 < tb → ∃ bs, read_floats bb tb = Ran bs) →
  ∃ w', write_blob env path tw tb wb bb w = Ran (FAHREN_SUCCESS, w').
Proof.
  intros Hco Hw Hb. pose proof Hco as (_ & Hfo & _).
  unfold write_blob, fopen_wb. rewrite Hfo.
  set (w1 := {| heap := heap w; files := <[path:=[]]> (files w);
                trace := EvFopen path true :: trace w |}).
  pose proof (fwrite_each_cooperative (blob_header tw tb) (Stream path []) w1
                Hco) as H2.
  destruct (fwrite_each env _ (blob_header tw tb) w1) as [[ok2 f2] w2].
  cbn [fst] in H2. subst ok2. cbn [negb].
  assert (∀ f buf count wx,
            (0 < count → ∃ vs, read_floats buf count = Ran vs) →
            ∃ f' wx', fwrite_floats env f buf count wx = Ran (true, f', wx'))
    as Hfloats.
  { intros f buf count wx Hread. unfold fwrite_floats.
    destruct (Z.ltb_spec 0 count) as [Hpos|_]; [|by eexists _, _].
    destruct (Hread Hpos) as [vs ->]. cbn [exec_bind].
    pose proof (fwrite_cooperative f (float_bytes vs) wx Hco) as H1.
    destruct (fwrite env f (float_bytes vs) wx) as [[ok1 f1] w1'].
    cbn [fst] in H1. subst ok1. by eexists _, _. }
  destruct (Hfloats f2 wb tw w2 Hw) as (f3 & w3 & ->). cbn [exec_bind negb].
  destruct (Hfloats f3 bb tb w3 Hb) as (f4 & w4 & ->). cbn [exec_bind negb].
  by eexists.
Qed.

End Writer.

(** ** The Counter on a handle *)

Lemma count_parameters_resolved mem cm ds :
  layer_sequence mem cm = Some ds →
  count_parameters mem cm =
  Ran (if bool_decide (machine_total_weights ds ≤ SIZE_MAX
                       ∧ machine_total_biases ds ≤ SIZE_MAX)
       then inr (machine_total_weights ds, machine_total_biases ds)
       else inl FAHREN_ERROR_PROCESSING_FAILED).
Proof.
  unfold layer_sequence, count_parameters. intros Hds.
  rewrite (count_loop_resolved _ _ _ _ _ _ _ Hds).
  rewrite count_list_sums by (unfold SIZE_MAX; lia).
  by rewrite !Z.add_0_l.
Qed.

Lemma count_parameters_totals mem cm tw tb :
  count_parameters mem cm = Ran (inr (tw, tb)) →
  ∃ ds, layer_sequence mem cm = Some ds
        ∧ tw = machine_total_weights ds ∧ tb = machine_total_biases ds
        ∧ 0 ≤ tw ≤ SIZE_MAX ∧ 0 ≤ tb ≤ SIZE_MAX.
Proof.
  intros H. pose proof H as [ds Hds]%count_loop_reads.
  exists ds. split; [done|].
  rewrite (count_parameters_resolved _ _ _ Hds) in H.
  pose proof (machine_total_weights_nonneg ds).
  pose proof (machine_total_biases_nonneg ds).
  case_bool_decide as Hfit; [|done].
  injection H as <- <-. lia.
Qed.

(** The only early return of the counting loop is the overflow one. *)
Lemma count_loop_early mem base n : ∀ i tw tb s,
  count_loop mem base n i tw tb = Ran (inl s) →
  s = FAHREN_ERROR_PROCESSING_FAILED.
Proof.
  induction n as [|n IH]; intros i tw tb s; simpl; [done|].
  destruct (layer_counts mem base i) as [[lw od]|]; [|done]. simpl.
  destruct (lw >? _); [by intros [= <-]|].
  destruct (od >? _); [by intros [= <-]|].
  apply IH.
Qed.

Lemma capacity_bound total : Z.of_nat (capacity total) ≤ SIZE_MAX.
Proof.
  unfold capacity. destruct (0 <? total); [|unfold SIZE_MAX; simpl; lia].
  unfold size_mul, sizeof_float.
  pose proof (size_wrap_range (total * 4)) as Hr.
  rewrite Z2Nat.id by (apply Z.div_pos; lia).
  apply Z.div_le_upper_bound; lia.
Qed.

Lemma capacity_exact total :
  0 ≤ total → total * 4 ≤ SIZE_MAX → Z.of_nat (capacity total) = total.
Proof.
  intros H0 H4. unfold capacity. destruct (Z.ltb_spec 0 total); [|simpl; lia].
  unfold size_mul, sizeof_float.
  rewrite size_wrap_small, Z.div_mul by lia. lia.
Qed.

Lemma capacity_short total :
  0 ≤ total → SIZE_MAX < total * 4 → Z.of_nat (capacity total) < total.
Proof.
  intros H0 H4. unfold capacity.
  destruct (Z.ltb_spec 0 total); [|unfold SIZE_MAX in *; lia].
  unfold size_mul, sizeof_float, size_wrap.
  pose proof (Z.div_mod (total * 4) (SIZE_MAX + 1) ltac:(unfold SIZE_MAX; lia)) as Hdm.
  pose proof (Z.mod_pos_bound (total * 4) (SIZE_MAX + 1) ltac:(unfold SIZE_MAX; lia)) as Hm.
  assert (1 ≤ (total * 4) `div` (SIZE_MAX + 1)) as Hq.
  { unfold SIZE_MAX in *. lia. }
  rewrite Z2Nat.id by (apply Z.div_pos; lia).
  apply Z.div_lt_upper_bound; [lia|].
  unfold SIZE_MAX in *. nia.
Qed.

Section WriteRandomWeights.

Variable env : environment.

Lemma prepare_frame total size w buf w1 :
  (if 0 <? total then malloc env size w else (None, w)) = (buf, w1) →
  same_state w w1.
Proof.
  destruct (0 <? total).
  - intros H. pose proof (malloc_frame env size w) as Hs.
    by rewrite H in Hs.
  - intros [= _ <-]. apply same_state_refl.
Qed.

Lemma prepare_cooperative total w :
  cooperative env →
  ∃ buf w1,
    (if 0 <? total then malloc env (size_mul total sizeof_float) w
     else (None, w)) = (buf, w1)
    ∧ holds buf [] (capacity total)
    ∧ (0 <? total) && bool_decide (buf = None) = false.
Proof.
  intros (Hm & _ & _). unfold capacity, malloc, holds.
  destruct (0 <? total).
  - rewrite Hm. eexists _, _. split; [done|].
    rewrite partial_nil. simpl. split; [|done]. split; [lia|by left].
  - eexists _, _. split; [done|]. simpl. split; [|done].
    split; [lia|by right].
Qed.

(** What a call leaves behind, whatever it returns. *)
Lemma write_spec cm p w st w' :
  fahren_write_random_weights env cm (Some p) w = Ran (st, w') →
  wrote_at_most p w w'
  ∧ (st = FAHREN_SUCCESS →
     ∃ h tw tb ws bs c,
       cm = Some h ∧ initialized h ≠ 0
       ∧ count_parameters (heap w) h = Ran (inr (tw, tb))
       ∧ files w' = <[p := c]> (files w)
       ∧ c `prefix_of` blob tw tb ws bs
       ∧ (closes_cleanly env → c = blob tw tb ws bs)
       ∧ Z.of_nat (length ws) = tw ∧ Z.of_nat (length bs) = tb).
Proof.
  unfold fahren_write_random_weights, wrote_at_most.
  destruct cm as [h|].
  2: { intros [= <- <-]. split; [|done]. split; [done|]. left.
       apply same_state_refl. }
  destruct (Z.eqb_spec (initialized h) 0) as [|Hinit].
  { intros [= <- <-]. split; [|done]. split; [done|]. left.
    apply same_state_refl. }
  destruct (count_parameters (heap w) h) as [[s|[tw tb]]|] eqn:Hcount;
    cbn [exec_bind]; [| |done].
  { apply count_loop_early in Hcount as ->.
    intros [= <- <-]. split; [|done]. split; [done|]. left.
    apply same_state_refl. }
  destruct (count_parameters_totals _ _ _ _ Hcount)
    as (ds & Hds & _ & _ & Htw & Htb).
  destruct (if 0 <? tw then _ else _) as [wb w1] eqn:Hm1.
  apply prepare_frame in Hm1 as Hs1.
  destruct ((0 <? tw) && _).
  { intros [= <- <-]. split; [|done]. split; [apply Hs1|by left]. }
  destruct (if 0 <? tb then _ else _) as [bb w2] eqn:Hm2.
  apply prepare_frame in Hm2 as Hs2.
  destruct ((0 <? tb) && _).
  { intros [= <- <-]. split; [|done].
    pose proof (same_state_trans _ _ _ Hs1
      (same_state_trans _ _ _ Hs2 (free_frame wb w2))) as Hs.
    split; [apply Hs|by left]. }
  destruct (fill_loop env _ _ _ _ _ _ _ w2)
    as [[[[[wb' bb'] wi] bi] w3]|] eqn:Hfill; cbn [exec_bind]; [|done].
  apply fill_loop_frame in Hfill as Hs3.
  intros Hblob.
  destruct (write_blob_anatomy env p tw tb wb' bb' w3 st w' ltac:(lia)
              ltac:(lia) Hblob) as (_ & Hh & Ho & _ & _ & _ & _ & Hfile).
  pose proof (same_state_trans _ _ _ Hs1 (same_state_trans _ _ _ Hs2 Hs3))
    as (Hh3 & Hf3 & Ho3).
  rewrite Hh3 in Hh. rewrite Hf3 in Hfile. rewrite Ho3 in Ho.
  destruct (fopen_succeeds env (trace w3) p).
  - destruct Hfile as (c & ws & bs & Hf & Hpre & Hws & Hbs & Hok).
    split; [split; [done|right; split; [done|right; by exists c]]|].
    intros Hst. destruct (Hok Hst) as (Hclean & _).
    by exists h, tw, tb, ws, bs, c.
  - destruct Hfile as [-> Hf]. split; [|done].
    split; [done|]. right. split; [done|by left].
Qed.

(** On a platform where no call fails, a handle whose totals can be
    allocated is written out. *)
Lemma write_succeeds h p w tw tb :
  cooperative env → initialized h ≠ 0 →
  count_parameters (heap w) h = Ran (inr (tw, tb)) →
  tw * 4 ≤ SIZE_MAX → tb * 4 ≤ SIZE_MAX →
  ∃ w', fahren_write_random_weights env (Some h) (Some p) w
        = Ran (FAHREN_SUCCESS, w').
Proof.
  intros Hco Hinit Hcount Hw4 Hb4.
  destruct (count_parameters_totals _ _ _ _ Hcount)
    as (ds & Hds & Hwsum & Hbsum & Htw & Htb).
  unfold fahren_write_random_weights.
  rewrite (proj2 (Z.eqb_neq _ _) Hinit), Hcount. cbn [exec_bind].
  destruct (prepare_cooperative tw w Hco) as (wb & w1 & Hm1 & Hwb & Hnw).
  rewrite Hm1, Hnw. apply prepare_frame in Hm1 as Hs1.
  destruct (prepare_cooperative tb w1 Hco) as (bb & w2 & Hm2 & Hbb & Hnb).
  rewrite Hm2, Hnb. apply prepare_frame in Hm2 as Hs2.
  assert (heap w2 = heap w) as Hheap.
  { destruct Hs1 as [? _], Hs2 as [? _]. congruence. }
  unfold layer_sequence in Hds. rewrite <- Hheap in Hds.
  destruct (fill_loop_fits env (capacity tw) (capacity tb)
              (capacity_bound tw) (capacity_bound tb) _ _ _ _
              wb bb [] [] w2 Hds Hwb Hbb)
    as (wn & bn & wb' & bb' & w3 & Hfill & Hwb' & Hbb' & Hwn & Hbn & _).
  { rewrite capacity_exact by lia. cbn [length]. lia. }
  { rewrite capacity_exact by lia. cbn [length]. lia. }
  cbn [length app] in Hfill. change (Z.of_nat 0) with 0 in Hfill.
  rewrite Hfill. cbn [exec_bind].
  apply write_blob_succeeds; [done| |].
  - intros Hpos. exists wn.
    destruct Hwb' as [_ [-> | [_ Hcap]]].
    + pose proof (capacity_exact tw ltac:(lia) Hw4) as Hc.
      replace (capacity tw) with (length wn) by lia.
      rewrite partial_full. replace tw with (Z.of_nat (length wn)) by lia.
      apply read_floats_full.
    + pose proof (capacity_exact tw ltac:(lia) Hw4). lia.
  - intros Hpos. exists bn.
    destruct Hbb' as [_ [-> | [_ Hcap]]].
    + pose proof (capacity_exact tb ltac:(lia) Hb4) as Hc.
      replace (capacity tb) with (length bn) by lia.
      rewrite partial_full. replace tb with (Z.of_nat (length bn)) by lia.
      apply read_floats_full.
    + pose proof (capacity_exact tb ltac:(lia) Hb4). lia.
Qed.

(** On such a platform, a total whose byte size wraps around gets a
    buffer that is too small, and the fill loop stores past its end. *)
Lemma write_overruns h p w tw tb :
  cooperative env → initialized h ≠ 0 →
  count_parameters (heap w) h = Ran (inr (tw, tb)) →
  SIZE_MAX < tw * 4 ∨ SIZE_MAX < tb * 4 →
  fahren_write_random_weights env (Some h) (Some p) w = Undef.
Proof.
  intros Hco Hinit Hcount Hover.
  destruct (count_parameters_totals _ _ _ _ Hcount)
    as (ds & Hds & Hwsum & Hbsum & Htw & Htb).
  unfold fahren_write_random_weights.
  rewrite (proj2 (Z.eqb_neq _ _) Hinit), Hcount. cbn [exec_bind].
  destruct (prepare_cooperative tw w Hco) as (wb & w1 & Hm1 & Hwb & Hnw).
  rewrite Hm1, Hnw. apply prepare_frame in Hm1 as Hs1.
  destruct (prepare_cooperative tb w1 Hco) as (bb & w2 & Hm2 & Hbb & Hnb).
  rewrite Hm2, Hnb. apply prepare_frame in Hm2 as Hs2.
  assert (heap w2 = heap w) as Hheap.
  { destruct Hs1 as [? _], Hs2 as [? _]. congruence. }
  unfold layer_sequence in Hds. rewrite <- Hheap in Hds.
  pose proof (fill_loop_overrun env (capacity tw) (capacity tb)
              (capacity_bound tw) (capacity_bound tb) _ _ _ _
              wb bb [] [] w2 Hds Hwb Hbb) as Hfill.
  cbn [length] in Hfill. change (Z.of_nat 0) with 0 in Hfill.
  rewrite Hfill; [done|].
  destruct Hover as [Hover|Hover].
  - left. pose proof (capacity_short tw ltac:(lia) Hover). lia.
  - right. pose proof (capacity_short tb ltac:(lia) Hover). lia.
Qed.

End WriteRandomWeights.

(** ** Every exit path of [fahren_write_random_weights] *)

Section Anatomy.

Variable env : environment.

Lemma prepare_trace total w buf w1 :
  (if 0 <? total then malloc env (size_mul total sizeof_float) w
   else (None, w)) = (buf, w1) →
  buffers_held (trace w1) = buffers_held (trace w) + live buf
  ∧ streams_held (trace w1) = streams_held (trace w)
  ∧ samples (trace w1) = samples (trace w)
  ∧ mallocs (trace w1)
    = (if 0 <? total then [size_mul total sizeof_float] else [])
      ++ mallocs (trace w)
  ∧ ((0 <? total) && bool_decide (buf = None) = false →
     holds buf [] (capacity total))
  ∧ ((0 <? total) && bool_decide (buf = None) = true →
     ∃ t size, malloc_succeeds env t size = false).
Proof.
  unfold capacity, malloc, holds.
  destruct (0 <? total).
  - destruct (malloc_succeeds env (trace w) _) eqn:Hm; intros [= <- <-];
      (split; [unfold buffers_held; cbn; lia|]);
      (split; [done|]); (split; [done|]); (split; [done|]).
    + split; [|done].
      intros _. rewrite partial_nil. cbn [length]. split; [lia|by left].
    + split; [done|]. intros _. eauto.
  - intros [= <- <-].
    split; [cbn; lia|]. split; [done|]. split; [done|]. split; [done|].
    split; [|done]. intros _. cbn [length]. split; [lia|by right].
Qed.

Lemma nil_of_length_zero {A} (l : list A) : Z.of_nat (length l) = 0 → l = [].
Proof. destruct l; [done|simpl; lia]. Qed.

Lemma write_anatomy h p w st w' :
  initialized h ≠ 0 →
  fahren_write_random_weights env (Some h) (Some p) w = Ran (st, w') →
  (st = FAHREN_SUCCESS ∨ st = FAHREN_ERROR_PROCESSING_FAILED)
  ∧ heap w' = heap w
  ∧ buffers_held (trace w') = buffers_held (trace w)
  ∧ streams_held (trace w') = streams_held (trace w)
  ∧ ((count_parameters (heap w) h = Ran (inl FAHREN_ERROR_PROCESSING_FAILED)
      ∧ st = FAHREN_ERROR_PROCESSING_FAILED ∧ w' = w)
     ∨ ∃ tw tb,
         count_parameters (heap w) h = Ran (inr (tw, tb))
         ∧ ((st = FAHREN_ERROR_PROCESSING_FAILED
             ∧ files w' = files w
             ∧ opened (trace w') = opened (trace w)
             ∧ samples (trace w') = samples (trace w)
             ∧ (0 < tw ∨ 0 < tb)
             ∧ ∃ t size, malloc_succeeds env t size = false)
            ∨ ∃ wn bn,
                Z.of_nat (length wn) = tw ∧ Z.of_nat (length bn) = tb
                ∧ samples (trace w') ≡ₚ wn ++ bn ++ samples (trace w)
                ∧ mallocs (trace w')
                  = (if 0 <? tb then [size_mul tb sizeof_float] else [])
                    ++ (if 0 <? tw then [size_mul tw sizeof_float] else [])
                    ++ mallocs (trace w)
                ∧ opened (trace w') = p :: opened (trace w)
                ∧ ((st = FAHREN_ERROR_PROCESSING_FAILED ∧ files w' = files w)
                   ∨ ∃ c ws bs,
                       files w' = <[p := c]> (files w)
                       ∧ c `prefix_of` blob tw tb ws bs
                       ∧ Z.of_nat (length ws) = tw
                       ∧ Z.of_nat (length bs) = tb
                       ∧ (st = FAHREN_SUCCESS →
                          ws = wn ∧ bs = bn
                          ∧ (closes_cleanly env → c = blob tw tb wn bn))))).
Proof.
  intros Hinit. unfold fahren_write_random_weights.
  rewrite (proj2 (Z.eqb_neq _ _) Hinit).
  destruct (count_parameters (heap w) h) as [[s|[tw tb]]|] eqn:Hcount;
    cbn [exec_bind]; [| |done].
  { apply count_loop_early in Hcount as ->. intros [= <- <-].
    split; [by right|]. do 3 (split; [done|]). by left. }
  destruct (count_parameters_totals _ _ _ _ Hcount)
    as (ds & Hds & Htws & Htbs & Htw & Htb).
  destruct (if 0 <? tw then _ else _) as [wb w1] eqn:Hm1.
  pose proof (prepare_frame _ _ _ _ _ _ Hm1) as (Hh1 & Hf1 & Ho1).
  destruct (prepare_trace _ _ _ _ Hm1) as (Hb1 & Hs1 & Hd1 & Hmm1 & Hwb & Hno1).
  destruct ((0 <? tw) && bool_decide (wb = None)) eqn:Hn1.
  { intros [= <- <-]. specialize (Hno1 eq_refl).
    apply andb_true_iff in Hn1 as [Hpos%Z.ltb_lt ->%bool_decide_eq_true].
    split; [by right|]. split; [done|].
    split; [simpl in Hb1; lia|]. split; [done|].
    right. exists tw, tb. split; [done|]. left.
    split; [done|]. split; [done|]. split; [done|]. split; [done|].
    split; [by left|done]. }
  specialize (Hwb eq_refl).
  destruct (if 0 <? tb then _ else _) as [bb w2] eqn:Hm2.
  pose proof (prepare_frame _ _ _ _ _ _ Hm2) as (Hh2 & Hf2 & Ho2).
  destruct (prepare_trace _ _ _ _ Hm2) as (Hb2 & Hs2 & Hd2 & Hmm2 & Hbb & Hno2).
  destruct ((0 <? tb) && bool_decide (bb = None)) eqn:Hn2.
  { intros [= <- <-]. specialize (Hno2 eq_refl).
    apply andb_true_iff in Hn2 as [Hpos%Z.ltb_lt ->%bool_decide_eq_true].
    destruct (free_trace wb w2) as (Hb3 & Hs3 & _ & Hd3).
    destruct (free_frame wb w2) as (Hh3 & Hf3 & Ho3).
    split; [by right|]. split; [congruence|].
    split; [simpl in Hb2; lia|]. split; [congruence|].
    right. exists tw, tb. split; [done|]. left.
    split; [done|]. split; [congruence|].
    split; [congruence|]. split; [congruence|]. split; [by right|done]. }
  specialize (Hbb eq_refl).
  assert (heap w2 = heap w) as Hheap by congruence.
  unfold layer_sequence in Hds. rewrite <- Hheap in Hds.
  destruct (decide (Z.of_nat (capacity tw) < tw ∨ Z.of_nat (capacity tb) < tb))
    as [Hshort|Hroom].
  { pose proof (fill_loop_overrun env (capacity tw) (capacity tb)
                  (capacity_bound tw) (capacity_bound tb) _ _ _ _
                  wb bb [] [] w2 Hds Hwb Hbb) as Hfill.
    cbn [length] in Hfill. change (Z.of_nat 0) with 0 in Hfill.
    rewrite Hfill; [done|]. lia. }
  destruct (fill_loop_drawn env (capacity tw) (capacity tb)
              (capacity_bound tw) (capacity_bound tb) _ _ _ _
              wb bb [] [] w2 Hds Hwb Hbb)
    as (wn & bn & wb' & bb' & w3 & Hfill & Hwb' & Hbb' & Hwn & Hbn & Hd3 & Hh3).
  { cbn [length]. lia. }
  { cbn [length]. lia. }
  cbn [length app] in Hfill, Hwb', Hbb'. change (Z.of_nat 0) with 0 in Hfill.
  rewrite Hfill. cbn [exec_bind].
  destruct (fill_loop_trace _ _ _ _ _ _ _ _ _ _ _ _ _ _ Hfill)
    as (Hb3 & Hs3 & Hmm3 & Hlw & Hlb).
  pose proof (fill_loop_frame _ _ _ _ _ _ _ _ _ _ _ Hfill) as (_ & Hf3 & Ho3).
  intros Hblob.
  destruct (write_blob_anatomy env p tw tb wb' bb' w3 st w' ltac:(lia)
              ltac:(lia) Hblob)
    as (Hst & Hh4 & Ho4 & Hb4 & Hs4 & Hmm4 & Hd4 & Hfile).
  split; [done|]. split; [congruence|].
  split; [lia|]. split; [congruence|].
  right. exists tw, tb. split; [done|]. right. exists wn, bn.
  split; [lia|]. split; [lia|].
  split; [by rewrite Hd4, Hd3, Hd2, Hd1|].
  split; [rewrite Hmm4, Hmm3, Hmm2, Hmm1; by rewrite app_assoc|].
  split; [congruence|].
  destruct (fopen_succeeds env (trace w3) p).
  2: { left. destruct Hfile as [-> ->]. split; [done|congruence]. }
  right. destruct Hfile as (c & ws & bs & Hc & Hpre & Hws & Hbs & Hok).
  exists c, ws, bs. rewrite Hc, Hf3, Hf2, Hf1.
  split; [done|]. split; [done|]. split; [done|]. split; [done|].
  intros Hsucc. destruct (Hok Hsucc) as (Hclean & Hrw & Hrb).
  assert (ws = wn) as ->.
  { destruct (decide (0 < tw)) as [Hpos|Hzero].
    - specialize (Hrw Hpos).
      destruct Hwb' as [Hlen [-> | [_ Hcap]]]; [|lia].
      pose proof (read_floats_partial wn (capacity tw) Hlen) as Hp.
      replace (Z.of_nat (length wn)) with tw in Hp by lia.
      rewrite Hp in Hrw. by injection Hrw.
    - rewrite (nil_of_length_zero ws), (nil_of_length_zero wn) by lia. done. }
  assert (bs = bn) as ->.
  { destruct (decide (0 < tb)) as [Hpos|Hzero].
    - specialize (Hrb Hpos).
      destruct Hbb' as [Hlen [-> | [_ Hcap]]]; [|lia].
      pose proof (read_floats_partial bn (capacity tb) Hlen) as Hp.
      replace (Z.of_nat (length bn)) with tb in Hp by lia.
      rewrite Hp in Hrb. by injection Hrb.
    - rewrite (nil_of_length_zero bs), (nil_of_length_zero bn) by lia. done. }
  split; [done|]. split; [done|]. exact Hclean.
Qed.

End Anatomy.

(** ** Properties of the Counter *)

Lemma generous_cooperative : cooperative generous.
Proof. done. Qed.

Lemma generous_closes : closes_cleanly generous.
Proof. by intros h path n. Qed.

Lemma resolve_layers_lookup mem base n : ∀ j ds (i : nat) d,
  resolve_layers mem base n j = Some ds → ds !! i = Some d →
  resolve_layer mem base (j + Z.of_nat i) = Some d.
Proof.
  induction n as [|n IH]; intros j ds i d; simpl.
  - by intros [= <-].
  - destruct (resolve_layer mem base j) as [d0|] eqn:Hd0; [|done].
    destruct (resolve_layers mem base n (j + 1)) as [ds'|] eqn:Hds'; [|done].
    intros [= <-]. destruct i as [|i]; simpl.
    + intros [= <-]. by rewrite Z.add_0_r.
    + intros Hd. rewrite <- (IH (j + 1) ds' i d Hds' Hd). f_equal. lia.
Qed.

(** Where every per-layer count is representable, an exact total above
    [SIZE_MAX] makes the Counter fail. *)
Lemma counter_rejects_overflow mem cm ds :
  layer_sequence mem cm = Some ds → Forall fits ds →
  SIZE_MAX < total_weight_count ds ∨ SIZE_MAX < total_bias_count ds →
  count_parameters mem cm = Ran (inl FAHREN_ERROR_PROCESSING_FAILED).
Proof.
  intros Hds Hfit Hover.
  rewrite (count_parameters_resolved _ _ _ Hds).
  rewrite (fits_total_weights _ Hfit), (fits_total_biases _ Hfit).
  rewrite bool_decide_false; [done|lia].
Qed.

(** C1 (amended).  For every layer sequence with non-negative densities
    whose per-layer product [in_dim * out_dim] (times 9 for a
    Convolutional layer) does not exceed [SIZE_MAX], where [in_dim] is
    the predecessor's density or 1 without predecessor and [out_dim] the
    layer's own density: the Counter assigns to layer [i] exactly that
    product as weight count and [out_dim] as bias count; the totals it
    returns are the sums of these counts over the sequence; and it does
    return them whenever both sums are at most [SIZE_MAX]. *)
Theorem counter_formula mem cm ds :
  layer_sequence mem cm = Some ds →
  Forall fits ds →
  (∀ (i : nat) d, ds !! i = Some d →
     layer_counts mem (layers cm) (Z.of_nat i)
     = Ran (in_dim d * out_dim d * kernel_factor (kind d), out_dim d))
  ∧ (∀ tw tb, count_parameters mem cm = Ran (inr (tw, tb)) →
       tw = total_weight_count ds ∧ tb = total_bias_count ds)
  ∧ (total_weight_count ds ≤ SIZE_MAX → total_bias_count ds ≤ SIZE_MAX →
       count_parameters mem cm
       = Ran (inr (total_weight_count ds, total_bias_count ds))).
Proof.
  intros Hds Hfit.
  rewrite (count_parameters_resolved _ _ _ Hds).
  rewrite (fits_total_weights _ Hfit), (fits_total_biases _ Hfit).
  split; [|split].
  - intros i d Hd.
    pose proof (resolve_layers_lookup _ _ _ 0 ds i d Hds Hd) as Hr.
    rewrite Z.add_0_l in Hr. rewrite layer_counts_resolved, Hr.
    assert (fits d) as Hfd.
    { eapply Forall_forall; [exact Hfit|]. by eapply list_elem_of_lookup_2. }
    by rewrite (fits_weights d Hfd), (fits_biases d Hfd).
  - intros tw tb. case_bool_decide; [|done]. by intros [= <- <-].
  - intros Hw Hb. by rewrite bool_decide_true.
Qed.

Lemma counter_formula_witness :
  layer_counts two_dense (layers two_dense_handle) 1 = Ran (3 * 2 * 1, 2)
  ∧ count_parameters two_dense two_dense_handle = Ran (inr (9, 5)).
Proof.
  assert (layer_sequence two_dense two_dense_handle
          = Some [Dims 1 3 FAHREN_LAYER_DENSE; Dims 3 2 FAHREN_LAYER_DENSE])
    as Hds by (vm_compute; reflexivity).
  assert (Forall fits [Dims 1 3 FAHREN_LAYER_DENSE; Dims 3 2 FAHREN_LAYER_DENSE])
    as Hfit.
  { repeat constructor; unfold weight_count, SIZE_MAX, INT_MAX; simpl; lia. }
  destruct (counter_formula two_dense two_dense_handle _ Hds Hfit)
    as (Hlayer & _ & Htotal).
  split.
  - exact (Hlayer 1%nat (Dims 3 2 FAHREN_LAYER_DENSE) eq_refl).
  - apply Htotal; vm_compute; discriminate.
Defined.

(** C1 as stated fails, for every layer sequence and with exact
    products.  The Convolutional layer of the [wrapping] model would own
    [9 * 962528571 * 2129431055 = 2^64 + 29] weights, but the Counter
    assigns it 29; and a density of -1 is counted as [SIZE_MAX] weights
    and [SIZE_MAX] biases. *)
Lemma counter_formula_counterexample :
  ¬ (∀ mem cm ds (i : nat) d,
       layer_sequence mem cm = Some ds → ds !! i = Some d →
       layer_counts mem (layers cm) (Z.of_nat i)
       = Ran (in_dim d * out_dim d * kernel_factor (kind d), out_dim d))
  ∧ layer_sequence wrapping wrapping_handle
    = Some [Dims 1 962528571 FAHREN_LAYER_DENSE;
            Dims 962528571 2129431055 FAHREN_LAYER_CONVOLUTIONAL]
  ∧ layer_counts wrapping (layers wrapping_handle) 1 = Ran (29, 2129431055)
  ∧ layer_sequence negative negative_handle
    = Some [Dims 1 (-1) FAHREN_LAYER_DENSE]
  ∧ layer_counts negative (layers negative_handle) 0
    = Ran (SIZE_MAX, SIZE_MAX).
Proof.
  assert (layer_counts wrapping (layers wrapping_handle) (Z.of_nat 1)
          = Ran (29, 2129431055)) as Hrun by (vm_compute; reflexivity).
  split; [|repeat split; vm_compute; reflexivity].
  intros H.
  specialize (H wrapping wrapping_handle
    [Dims 1 962528571 FAHREN_LAYER_DENSE;
     Dims 962528571 2129431055 FAHREN_LAYER_CONVOLUTIONAL]
    1%nat (Dims 962528571 2129431055 FAHREN_LAYER_CONVOLUTIONAL)).
  rewrite Hrun in H.
  assert (Ran (29, 2129431055)
          = Ran (in_dim (Dims 962528571 2129431055 FAHREN_LAYER_CONVOLUTIONAL)
                 * out_dim (Dims 962528571 2129431055 FAHREN_LAYER_CONVOLUTIONAL)
                 * kernel_factor
                     (kind (Dims 962528571 2129431055 FAHREN_LAYER_CONVOLUTIONAL)),
                 out_dim (Dims 962528571 2129431055 FAHREN_LAYER_CONVOLUTIONAL)))
    as Heq.
  { apply H; [vm_compute; reflexivity | reflexivity]. }
  vm_compute in Heq. discriminate Heq.
Qed.

(** C2, evaluated on the [wrapping] model.  All densities are positive
    and the exact sum of the per-layer weight counts is above [SIZE_MAX],
    yet the Convolutional layer's count wraps to 29 before the additive
    check sees it: the Counter returns the totals (962528600, 3091959626)
    and, when no library call fails, the write succeeds. *)
Theorem wrapped_count_is_accepted :
  layer_sequence wrapping wrapping_handle
  = Some [Dims 1 962528571 FAHREN_LAYER_DENSE;
          Dims 962528571 2129431055 FAHREN_LAYER_CONVOLUTIONAL]
  ∧ SIZE_MAX
    < total_weight_count
        [Dims 1 962528571 FAHREN_LAYER_DENSE;
         Dims 962528571 2129431055 FAHREN_LAYER_CONVOLUTIONAL]
  ∧ count_parameters wrapping wrapping_handle
    = Ran (inr (962528600, 3091959626))
  ∧ ∃ w' ws bs,
      fahren_write_random_weights generous (Some wrapping_handle)
        (Some "model.bin"%string) wrapping_world
      = Ran (FAHREN_SUCCESS, w')
      ∧ files w' !! "model.bin"%string
        = Some (blob 962528600 3091959626 ws bs).
Proof.
  assert (count_parameters (heap wrapping_world) wrapping_handle
          = Ran (inr (962528600, 3091959626))) as Hcount
    by (vm_compute; reflexivity).
  split; [vm_compute; reflexivity|].
  split; [vm_compute; reflexivity|].
  split; [exact Hcount|].
  destruct (write_succeeds generous wrapping_handle "model.bin"%string
              wrapping_world 962528600 3091959626 generous_cooperative)
    as [w' Hrun].
  { vm_compute; discriminate. }
  { exact Hcount. }
  { vm_compute; discriminate. }
  { vm_compute; discriminate. }
  destruct (write_spec generous _ _ _ _ _ Hrun) as [_ Hok].
  destruct (Hok eq_refl)
    as (h & tw & tb & ws & bs & c & [= <-] & _ & Hc & Hf & _ & Hclean & _).
  rewrite Hcount in Hc. injection Hc as <- <-.
  exists w', ws, bs. split; [exact Hrun|].
  rewrite Hf, (Hclean generous_closes). apply lookup_insert_eq.
Qed.

(** ** Properties of the written blob *)

Lemma blob_fields tw tb ws bs :
  blob tw tb ws bs
  = le_bytes 4 FAHREN_MAGIC ++ le_bytes 4 FAHREN_VERSION_MAJOR
    ++ le_bytes 4 FAHREN_VERSION_MINOR ++ le_bytes 4 FAHREN_VERSION_PATCH
    ++ le_bytes 8 tw ++ le_bytes 8 tb ++ float_bytes ws ++ float_bytes bs.
Proof.
  unfold blob, blob_header. cbn [concat].
  by rewrite app_nil_r, <- !app_assoc.
Qed.

Lemma size_field_reads_back z : 0 ≤ z ≤ SIZE_MAX → le_value (le_bytes 8 z) = z.
Proof.
  intros Hz. apply le_value_le_bytes.
  change (256 ^ Z.of_nat 8) with (SIZE_MAX + 1). lia.
Qed.

(** C3 (amended).  Whenever [fahren_write_random_weights] succeeds and
    the [fclose] it ends with does not fail (the stream writes out all
    it holds; the source does not look at the result of [fclose]), the
    handle is initialized and the file at the path consists of exactly,
    in order: the 4-byte magic constant, the 4-byte major, minor and patch
    versions, the 8-byte weight count and the 8-byte bias count, both
    equal to the Counter's totals for the handle's sequence and reading
    back as such, then [total_weights] floats and [total_biases] floats
    of 4 bytes each; so the file size is
    [32 + 4 * total_weights + 4 * total_biases] bytes. *)
Theorem written_blob_layout env cm path w w' :
  closes_cleanly env →
  fahren_write_random_weights env cm path w = Ran (FAHREN_SUCCESS, w') →
  ∃ h p tw tb ws bs file,
    cm = Some h ∧ path = Some p ∧ initialized h ≠ 0
    ∧ count_parameters (heap w) h = Ran (inr (tw, tb))
    ∧ files w' !! p = Some file
    ∧ file = le_bytes 4 FAHREN_MAGIC ++ le_bytes 4 FAHREN_VERSION_MAJOR
             ++ le_bytes 4 FAHREN_VERSION_MINOR
             ++ le_bytes 4 FAHREN_VERSION_PATCH
             ++ le_bytes 8 tw ++ le_bytes 8 tb
             ++ float_bytes ws ++ float_bytes bs
    ∧ le_value (le_bytes 8 tw) = tw ∧ le_value (le_bytes 8 tb) = tb
    ∧ Z.of_nat (length ws) = tw ∧ Z.of_nat (length bs) = tb
    ∧ Z.of_nat (length file) = 32 + 4 * tw + 4 * tb.
Proof.
  intros Hclose.
  destruct path as [p|].
  2: { unfold fahren_write_random_weights. by destruct cm. }
  intros Hrun.
  destruct (write_spec env _ _ _ _ _ Hrun) as [_ Hok].
  destruct (Hok eq_refl)
    as (h & tw & tb & ws & bs & c & -> & Hinit & Hc & Hf & _ & Hclean
        & Hws & Hbs).
  rewrite (Hclean Hclose) in Hf.
  destruct (count_parameters_totals _ _ _ _ Hc) as (_ & _ & _ & _ & Htw & Htb).
  exists h, p, tw, tb, ws, bs, (blob tw tb ws bs).
  split; [done|]. split; [done|]. split; [done|]. split; [done|].
  split; [rewrite Hf; apply lookup_insert_eq|].
  split; [apply blob_fields|].
  split; [by apply size_field_reads_back|].
  split; [by apply size_field_reads_back|].
  split; [done|]. split; [done|].
  rewrite blob_length. lia.
Qed.

Lemma written_blob_layout_witness :
  ∃ w' file,
    fahren_write_random_weights buffering (Some two_dense_handle)
      (Some "out.bin"%string) two_dense_world = Ran (FAHREN_SUCCESS, w')
    ∧ files w' !! "out.bin"%string = Some file
    ∧ Z.of_nat (length file) = 32 + 4 * 9 + 4 * 5.
Proof.
  eexists.
  assert (count_parameters (heap two_dense_world) two_dense_handle
          = Ran (inr (9, 5))) as Hcount by (vm_compute; reflexivity).
  match goal with
  | |- ∃ file, ?run = Ran (_, ?w') ∧ _ =>
      assert (run = Ran (FAHREN_SUCCESS, w')) as Hrun
        by (vm_compute; reflexivity)
  end.
  assert (closes_cleanly buffering) as Hclose
    by (intros h path n; apply le_n).
  destruct (written_blob_layout _ _ _ _ _ Hclose Hrun)
    as (h & p & tw & tb & ws & bs & file & [= <-] & [= <-] & _ & Hc & Hf
        & _ & _ & _ & _ & _ & Hlen).
  rewrite Hcount in Hc. injection Hc as <- <-.
  exists file. split; [exact Hrun|]. split; [exact Hf|exact Hlen].
Defined.

(** C3 as stated fails: the header takes 32 bytes, not 24.  The blob
    written for the [two_dense] model (9 weights, 5 biases) has 88 bytes,
    not [24 + 4 * 9 + 4 * 5 = 80]. *)
Lemma written_blob_size_counterexample :
  ∃ w' file,
    fahren_write_random_weights generous (Some two_dense_handle)
      (Some "out.bin"%string) two_dense_world = Ran (FAHREN_SUCCESS, w')
    ∧ count_parameters (heap two_dense_world) two_dense_handle
      = Ran (inr (9, 5))
    ∧ files w' !! "out.bin"%string = Some file
    ∧ Z.of_nat (length file) ≠ 24 + 4 * 9 + 4 * 5.
Proof.
  eexists _, _.
  split; [vm_compute; reflexivity|].
  split; [vm_compute; reflexivity|].
  split; [vm_compute; reflexivity|].
  vm_compute. discriminate.
Qed.

(** C4, evaluated on the [two_dense] model.  The counts are as claimed:
    layer 0 has in_dim 1, 3 weights and 3 biases; layer 1 has in_dim 3,
    6 weights and 2 biases; the totals are 9 weights and 5 biases.  But
    a write that returns Success need not leave the 88 bytes of the blob:
    on the [capped] platform every [malloc], [fopen] and [fwrite]
    succeeds, the stream holds the 88 bytes until it is closed, [fclose]
    gets 40 of them into the file, and the call, which does not look at
    the result of [fclose], returns Success. *)
Theorem two_dense_success_is_truncated :
  layer_sequence two_dense two_dense_handle
  = Some [Dims 1 3 FAHREN_LAYER_DENSE; Dims 3 2 FAHREN_LAYER_DENSE]
  ∧ layer_counts two_dense (layers two_dense_handle) 0 = Ran (3, 3)
  ∧ layer_counts two_dense (layers two_dense_handle) 1 = Ran (6, 2)
  ∧ count_parameters two_dense two_dense_handle = Ran (inr (9, 5))
  ∧ cooperative capped
  ∧ ∃ w' file ws bs,
      fahren_write_random_weights capped (Some two_dense_handle)
        (Some "out.bin"%string) two_dense_world
      = Ran (FAHREN_SUCCESS, w')
      ∧ files w' !! "out.bin"%string = Some file
      ∧ length file = 40%nat
      ∧ length (blob 9 5 ws bs) = 88%nat
      ∧ file = take 40 (blob 9 5 ws bs).
Proof.
  split; [vm_compute; reflexivity|].
  split; [vm_compute; reflexivity|].
  split; [vm_compute; reflexivity|].
  split; [vm_compute; reflexivity|].
  split; [done|].
  eexists _, _, [2; 3; 4; 8; 9; 10; 11; 12; 13], [5; 6; 7; 14; 15].
  split; [vm_compute; reflexivity|].
  split; [vm_compute; reflexivity|].
  split; [vm_compute; reflexivity|].
  split; vm_compute; reflexivity.
Qed.

(** ** Argument checks, purity and initialization *)

(** C5.  [fahren_write_random_weights] returns InvalidArgument whenever
    the handle or the path is null, and NotInitialized whenever both are
    present but the handle is not initialized.  In both cases the world is
    returned as it was: nothing was allocated, no file was opened or
    created, and no layer was read (the result does not depend on the
    layer memory, even where counting would dereference a null or
    dangling pointer). *)
Theorem write_argument_checks env cm path w :
  (cm = None ∨ path = None →
   fahren_write_random_weights env cm path w
   = Ran (FAHREN_ERROR_INVALID_ARGUMENT, w))
  ∧ (∀ h p, cm = Some h → path = Some p → initialized h = 0 →
     fahren_write_random_weights env cm path w
     = Ran (FAHREN_ERROR_NOT_INITIALIZED, w)).
Proof.
  split.
  - intros [-> | ->]; [done|]. by destruct cm.
  - intros h p -> -> Hinit. unfold fahren_write_random_weights.
    by rewrite Hinit.
Qed.

Lemma write_argument_checks_witness :
  fahren_write_random_weights generous None (Some "out.bin"%string) empty_world
  = Ran (FAHREN_ERROR_INVALID_ARGUMENT, empty_world)
  ∧ fahren_write_random_weights generous (Some blank_handle)
      (Some "out.bin"%string) empty_world
    = Ran (FAHREN_ERROR_NOT_INITIALIZED, empty_world).
Proof.
  split.
  - apply (proj1 (write_argument_checks generous None
                    (Some "out.bin"%string) empty_world)).
    left. reflexivity.
  - apply (proj2 (write_argument_checks generous (Some blank_handle)
                    (Some "out.bin"%string) empty_world)
             blank_handle "out.bin"%string); reflexivity.
Defined.

(** C6.  Counting is a function of the layer sequence alone: two handles
    whose sequences read the same, wherever they lie in memory and
    whatever else the memory holds, get the same per-layer counts and the
    same result from the Counter.  A call of
    [fahren_write_random_weights], which counts first, leaves the layer
    memory as it was, so counting again gives the same result. *)
Theorem counting_is_pure :
  (∀ mem1 mem2 cm1 cm2 ds,
     layer_sequence mem1 cm1 = Some ds → layer_sequence mem2 cm2 = Some ds →
     count_parameters mem1 cm1 = count_parameters mem2 cm2
     ∧ ∀ (i : nat), (i < length ds)%nat →
         layer_counts mem1 (layers cm1) (Z.of_nat i)
         = layer_counts mem2 (layers cm2) (Z.of_nat i))
  ∧ (∀ env cm path w st w',
       fahren_write_random_weights env (Some cm) path w = Ran (st, w') →
       heap w' = heap w
       ∧ count_parameters (heap w') cm = count_parameters (heap w) cm).
Proof.
  split.
  - intros mem1 mem2 cm1 cm2 ds H1 H2. split.
    + by rewrite (count_parameters_resolved _ _ _ H1),
        (count_parameters_resolved _ _ _ H2).
    + intros i Hi. destruct (lookup_lt_is_Some_2 ds i Hi) as [d Hd].
      pose proof (resolve_layers_lookup _ _ _ 0 ds i d H1 Hd) as Hr1.
      pose proof (resolve_layers_lookup _ _ _ 0 ds i d H2 Hd) as Hr2.
      rewrite Z.add_0_l in Hr1, Hr2.
      by rewrite !layer_counts_resolved, Hr1, Hr2.
  - intros env cm path w st w' Hrun.
    assert (heap w' = heap w) as Hheap.
    { destruct path as [p|].
      - by destruct (write_spec env _ _ _ _ _ Hrun) as [[? _] _].
      - by injection Hrun as _ <-. }
    by rewrite Hheap.
Qed.

Lemma counting_is_pure_witness :
  ∃ w',
    fahren_write_random_weights generous (Some two_dense_handle)
      (Some "out.bin"%string) two_dense_world = Ran (FAHREN_SUCCESS, w')
    ∧ count_parameters (heap w') two_dense_handle
      = count_parameters (heap two_dense_world) two_dense_handle.
Proof.
  eexists.
  match goal with
  | |- ?run = Ran (_, ?w') ∧ _ =>
      assert (run = Ran (FAHREN_SUCCESS, w')) as Hrun
        by (vm_compute; reflexivity)
  end.
  split; [exact Hrun|].
  exact (proj2 (proj2 counting_is_pure generous two_dense_handle
                  (Some "out.bin"%string) two_dense_world _ _ Hrun)).
Defined.

(** C7.  [fahren_init] returns InvalidArgument whenever the handle is
    null, the layer array is null, or [layer_count] is 0, and hands the
    handle back exactly as it was (no field written; an uninitialized
    handle stays uninitialized); the world is untouched too. *)
Theorem init_rejects_invalid env cm mt count ls w :
  cm = None ∨ ls = None ∨ count = 0 →
  fahren_init env cm mt count ls w
  = Ran (FAHREN_ERROR_INVALID_ARGUMENT, cm, w).
Proof.
  unfold fahren_init.
  intros [-> | [-> | ->]]; [done| by destruct cm | by destruct cm, ls].
Qed.

Lemma init_rejects_invalid_witness :
  fahren_init generous (Some blank_handle) FAHREN_MODEL_SEQUENTIAL 0
    (Some 100) two_dense_world
  = Ran (FAHREN_ERROR_INVALID_ARGUMENT, Some blank_handle, two_dense_world).
Proof.
  apply (init_rejects_invalid generous (Some blank_handle)
           FAHREN_MODEL_SEQUENTIAL 0 (Some 100) two_dense_world).
  right. right. reflexivity.
Defined.



(** C9 (amended).  With a non-null handle, a non-null layer array and a
    non-zero [layer_count], whenever the initial-weights write returns,
    whatever status it returns is dropped: [fahren_init] returns Success
    and the handle it leaves is marked initialized. *)
Theorem init_discards_write_status env h mt count p w st w' :
  count ≠ 0 →
  fahren_write_random_weights env (Some (Handle 1 count mt (Some p)))
    (Some "fahren_initial_model.bin"%string) w = Ran (st, w') →
  ∃ h', fahren_init env (Some h) mt count (Some p) w
        = Ran (FAHREN_SUCCESS, Some h', w')
        ∧ initialized h' = 1.
Proof.
  intros Hcount Hrun. unfold fahren_init.
  rewrite (proj2 (Z.eqb_neq _ _) Hcount). cbn [initialized layer_count
    model_type layers]. unfold initial_model_path.
  rewrite Hrun. cbn [exec_bind]. by eexists.
Qed.

Lemma init_discards_write_status_witness :
  fahren_write_random_weights exhausted (Some two_dense_handle)
    (Some "fahren_initial_model.bin"%string) two_dense_world
  = Ran (FAHREN_ERROR_PROCESSING_FAILED,
         emit (EvMalloc 36 false) two_dense_world)
  ∧ ∃ h', fahren_init exhausted (Some blank_handle) FAHREN_MODEL_SEQUENTIAL 2
            (Some 100) two_dense_world
          = Ran (FAHREN_SUCCESS, Some h',
                 emit (EvMalloc 36 false) two_dense_world)
          ∧ initialized h' = 1.
Proof.
  assert (fahren_write_random_weights exhausted (Some two_dense_handle)
            (Some "fahren_initial_model.bin"%string) two_dense_world
          = Ran (FAHREN_ERROR_PROCESSING_FAILED,
                 emit (EvMalloc 36 false) two_dense_world)) as Hrun
    by (vm_compute; reflexivity).
  split; [exact Hrun|].
  assert ((2 : Z) ≠ 0) as Hcount by discriminate.
  exact (init_discards_write_status exhausted blank_handle
           FAHREN_MODEL_SEQUENTIAL 2 100 two_dense_world _ _ Hcount Hrun).
Defined.

(** C9 as stated fails: with valid arguments [fahren_init] does not
    always return.  For the [chain] model (five Dense layers of density
    2^30, a non-null handle, a non-null array and [layer_count] 5) on a
    platform where no call fails, the write it triggers stores past the
    end of the weight buffer, so the call of [fahren_init] has undefined
    behaviour and returns no status. *)
Lemma init_discards_write_status_counterexample :
  ¬ (∀ env h mt count p w,
       count ≠ 0 →
       ∃ cm' w', fahren_init env (Some h) mt count (Some p) w
                 = Ran (FAHREN_SUCCESS, cm', w'))
  ∧ fahren_init generous (Some blank_handle) FAHREN_MODEL_SEQUENTIAL 5
      (Some 0) chain_world = Undef.
Proof.
  assert (fahren_init generous (Some blank_handle) FAHREN_MODEL_SEQUENTIAL 5
            (Some 0) chain_world = Undef) as Hrun.
  { unfold fahren_init. cbn [Z.eqb initialized layer_count model_type layers].
    rewrite (write_overruns generous (Handle 1 5 FAHREN_MODEL_SEQUENTIAL (Some 0))
               initial_model_path chain_world
               4611686019501129728 5368709120 generous_cooperative);
      [done| | |].
    - cbn [initialized]. discriminate.
    - vm_compute; reflexivity.
    - left. vm_compute. reflexivity. }
  split; [|exact Hrun].
  intros Hall.
  destruct (Hall generous blank_handle FAHREN_MODEL_SEQUENTIAL 5 0 chain_world)
    as (cm' & w' & Hret); [discriminate|].
  rewrite Hrun in Hret. discriminate Hret.
Qed.

(** ** The allocation size *)

(** With buffers of exactly the counted sizes, the fill loop stores in
    bounds, ends with both indices at the totals, and leaves no cell
    unfilled. *)
Lemma fill_after_count env h w tw tb wb bb :
  count_parameters (heap w) h = Ran (inr (tw, tb)) →
  holds wb [] (Z.to_nat tw) → holds bb [] (Z.to_nat tb) →
  ∃ ws bs wb' bb' w',
    fill_loop env (layers h) (Z.to_nat (layer_count h)) 0 wb bb 0 0 w
    = Ran (wb', bb', tw, tb, w')
    ∧ holds wb' ws (Z.to_nat tw) ∧ holds bb' bs (Z.to_nat tb)
    ∧ Z.of_nat (length ws) = tw ∧ Z.of_nat (length bs) = tb.
Proof.
  intros Hcount Hwb Hbb.
  destruct (count_parameters_totals _ _ _ _ Hcount)
    as (ds & Hds & Hwsum & Hbsum & Htw & Htb).
  destruct (fill_loop_fits env (Z.to_nat tw) (Z.to_nat tb)
              ltac:(lia) ltac:(lia) _ _ _ _ wb bb [] [] w Hds Hwb Hbb)
    as (wn & bn & wb' & bb' & w' & Hfill & Hwb' & Hbb' & Hwn & Hbn & _).
  { cbn [length]. lia. }
  { cbn [length]. lia. }
  cbn [length app] in Hfill, Hwb', Hbb'. change (Z.of_nat 0) with 0 in Hfill.
  exists wn, bn, wb', bb', w'.
  rewrite Hfill, Hwn, Hbn, <- Hwsum, <- Hbsum.
  split; [done|]. split; [done|]. split; [done|]. lia.
Qed.

(** C10, evaluated on the [chain] model.  The Counter returns
    2^62 + 2^30 weights; the byte size passed to [malloc] wraps to 2^32,
    room for 2^30 floats only; on a platform where no call fails, the
    fill loop stores past the end of the weight buffer. *)
Theorem chain_fill_overruns :
  count_parameters chain chain_handle
  = Ran (inr (4611686019501129728, 5368709120))
  ∧ size_mul 4611686019501129728 sizeof_float = 4294967296
  ∧ fahren_write_random_weights generous (Some chain_handle)
      (Some "model.bin"%string) chain_world = Undef.
Proof.
  assert (count_parameters (heap chain_world) chain_handle
          = Ran (inr (4611686019501129728, 5368709120))) as Hcount
    by (vm_compute; reflexivity).
  split; [exact Hcount|].
  split; [vm_compute; reflexivity|].
  apply (write_overruns generous chain_handle "model.bin"%string chain_world
           4611686019501129728 5368709120 generous_cooperative).
  - vm_compute; discriminate.
  - exact Hcount.
  - left. vm_compute. reflexivity.
Qed.

(** ** C strings *)

Lemma string_length_app (a b : string) :
  String.length (a +:+ b) = (String.length a + String.length b)%nat.
Proof. induction a as [|c a IH]; simpl; [done|]. by rewrite IH. Qed.

Lemma strncmp_eq_prefix pre : ∀ s,
  strncmp_eq s pre (String.length pre) = true ↔ ∃ rest, s = pre +:+ rest.
Proof.
  induction pre as [|c pre IH]; intros s; simpl.
  - split; [intros _; by exists s|done].
  - destruct s as [|c1 s1].
    + split; [done|]. by intros [rest ?].
    + destruct (Ascii.eqb_spec c1 c) as [->|Hne].
      * rewrite IH. split.
        -- intros [rest ->]. by exists rest.
        -- intros [rest [= ->]]. by exists rest.
      * split; [done|]. intros [rest [= ? ?]]. done.
Qed.

Lemma advance_app (a b : string) : advance (String.length a) (a +:+ b) = b.
Proof. induction a as [|c a IH]; simpl; [by destruct b|done]. Qed.

Lemma advance_split k : ∀ s,
  (k ≤ String.length s)%nat →
  ∃ stem, s = stem +:+ advance k s ∧ String.length stem = k.
Proof.
  induction k as [|k IH]; intros s Hk.
  - exists ""%string. by destruct s.
  - destruct s as [|c s]; simpl in *; [lia|].
    destruct (IH s ltac:(lia)) as (stem & Hs & Hlen).
    exists (String c stem). split; [|simpl; by rewrite Hlen].
    change (String c s = String c (stem +:+ advance k s)). by f_equal.
Qed.

(** The test [len >= 4 && strcmp(name + len - 4, ".bin") == 0] holds
    exactly of the names that end in ".bin". *)
Lemma bin_suffix_test (name : string) :
  (4 <=? String.length name)%nat
  && String.eqb (advance (String.length name - 4) name) ".bin" = true
  ↔ ∃ stem, name = stem +:+ ".bin".
Proof.
  rewrite andb_true_iff, Nat.leb_le, String.eqb_eq. split.
  - intros [Hlen Hsuf].
    destruct (advance_split (String.length name - 4) name ltac:(lia))
      as (stem & Hs & _).
    exists stem. by rewrite <- Hsuf.
  - intros [stem ->]. rewrite string_length_app. simpl. split; [lia|].
    replace (String.length stem + 4 - 4)%nat with (String.length stem) by lia.
    apply advance_app.
Qed.

(** ** Layer arrays in memory *)

Lemma release_lookup_in p n mem a :
  p ≤ a < p + Z.of_nat n → release p n mem !! a = None.
Proof.
  unfold release. intros Ha.
  assert (Z.to_nat (a - p) ∈ seq 0 n) as Hin by (apply elem_of_seq; lia).
  revert Hin. generalize (seq 0 n). intros l.
  induction l as [|i l IH]; [by intros ?%elem_of_nil|].
  intros Hin. simpl.
  destruct (decide (p + Z.of_nat i = a)) as [<-|Hne].
  - apply lookup_delete_eq.
  - rewrite lookup_delete_ne by done. apply IH.
    apply elem_of_cons in Hin as [Heq|Hin]; [lia|done].
Qed.

Lemma release_lookup_out p n mem a :
  ¬ (p ≤ a < p + Z.of_nat n) → release p n mem !! a = mem !! a.
Proof.
  unfold release. intros Ha.
  assert (∀ i, i ∈ seq 0 n → p + Z.of_nat i ≠ a) as Hall.
  { intros i Hi%elem_of_seq. lia. }
  revert Hall. generalize (seq 0 n). intros l.
  induction l as [|i l IH]; intros Hall; [done|]. simpl.
  rewrite lookup_delete_ne by (apply Hall; left).
  apply IH. intros j Hj. apply Hall. by right.
Qed.

Lemma establish_lookup_in p n mem a :
  p ≤ a < p + Z.of_nat n → establish p n mem !! a = Some zero_layer.
Proof.
  unfold establish. intros Ha.
  assert (Z.to_nat (a - p) ∈ seq 0 n) as Hin by (apply elem_of_seq; lia).
  revert Hin. generalize (seq 0 n). intros l.
  induction l as [|i l IH]; [by intros ?%elem_of_nil|].
  intros Hin. simpl.
  destruct (decide (p + Z.of_nat i = a)) as [<-|Hne].
  - apply lookup_insert_eq.
  - rewrite lookup_insert_ne by done. apply IH.
    apply elem_of_cons in Hin as [Heq|Hin]; [lia|done].
Qed.

Lemma establish_lookup_out p n mem a :
  ¬ (p ≤ a < p + Z.of_nat n) → establish p n mem !! a = mem !! a.
Proof.
  unfold establish. intros Ha.
  assert (∀ i, i ∈ seq 0 n → p + Z.of_nat i ≠ a) as Hall.
  { intros i Hi%elem_of_seq. lia. }
  revert Hall. generalize (seq 0 n). intros l.
  induction l as [|i l IH]; intros Hall; [done|]. simpl.
  rewrite lookup_insert_ne by (apply Hall; left).
  apply IH. intros j Hj. apply Hall. by right.
Qed.

(** Giving back a block that was placed on unused cells restores the
    memory. *)
Lemma release_establish p n mem :
  (∀ a, p ≤ a < p + Z.of_nat n → mem !! a = None) →
  release p n (establish p n mem) = mem.
Proof.
  intros Hfree. apply map_eq. intros a.
  destruct (decide (p ≤ a < p + Z.of_nat n)) as [Hin|Hout].
  - by rewrite release_lookup_in, Hfree.
  - by rewrite release_lookup_out, establish_lookup_out.
Qed.

(** ** Teardown *)

Section Teardown.

Variable plat : housekeeping.

Lemma cleanup_entry_lookup name fs (q : string) :
  cleanup_entry plat name fs !! q = fs !! q
  ∨ (cleanup_entry plat name fs !! q = None
     ∧ (∃ rest, q = "fahren_" +:+ rest) ∧ ¬ ∃ stem, q = stem +:+ ".bin").
Proof.
  unfold cleanup_entry, unlink.
  destruct (strncmp_eq name "fahren_" 7) eqn:Hpre; cbn [negb]; [|by left].
  destruct (_ && _) eqn:Hbin; [by left|].
  destruct (unlink_succeeds plat fs name); [|by left].
  destruct (decide (q = name)) as [->|Hne].
  - right. rewrite lookup_delete_eq. split; [done|]. split.
    + by apply (strncmp_eq_prefix "fahren_").
    + intros Hs%bin_suffix_test. congruence.
  - left. by rewrite lookup_delete_ne.
Qed.

Lemma cleanup_loop_lookup entries : ∀ fs (q : string),
  cleanup_loop plat entries fs !! q = fs !! q
  ∨ (cleanup_loop plat entries fs !! q = None
     ∧ (∃ rest, q = "fahren_" +:+ rest) ∧ ¬ ∃ stem, q = stem +:+ ".bin").
Proof.
  induction entries as [|name entries IH]; intros fs q; simpl; [by left|].
  destruct (IH (cleanup_entry plat name fs) q) as [Heq|Hgone]; [|by right].
  rewrite Heq. apply cleanup_entry_lookup.
Qed.

Lemma cleanup_entry_removes name fs :
  unlink_succeeds plat fs name = true →
  (∃ rest, name = "fahren_" +:+ rest) → ¬ (∃ stem, name = stem +:+ ".bin") →
  cleanup_entry plat name fs !! name = None.
Proof.
  intros Hun Hpre Hbin. unfold cleanup_entry, unlink.
  apply (strncmp_eq_prefix "fahren_") in Hpre.
  change (String.length "fahren_") with 7%nat in Hpre.
  rewrite Hpre. cbn [negb].
  destruct (_ && _) eqn:Htest.
  - by apply bin_suffix_test in Htest.
  - rewrite Hun. apply lookup_delete_eq.
Qed.

Lemma cleanup_loop_removes entries : ∀ fs name,
  (∀ fs' q, unlink_succeeds plat fs' q = true) →
  name ∈ entries →
  (∃ rest, name = "fahren_" +:+ rest) → ¬ (∃ stem, name = stem +:+ ".bin") →
  cleanup_loop plat entries fs !! name = None.
Proof.
  induction entries as [|e entries IH]; intros fs name Hun Hin Hpre Hbin.
  - by apply elem_of_nil in Hin.
  - simpl. apply elem_of_cons in Hin as [->|Hin]; [|by apply IH].
    destruct (cleanup_loop_lookup entries (cleanup_entry plat e fs) e)
      as [Heq|[Hgone _]]; [|done].
    rewrite Heq. by apply cleanup_entry_removes.
Qed.

(** What a teardown of an initialized handle does. *)
Lemma shutdown_spec h blocks w st cm' blocks' w' :
  initialized h ≠ 0 →
  fahren_shutdown plat (Some h) blocks w = Ran (st, cm', blocks', w') →
  st = FAHREN_SUCCESS
  ∧ cm' = Some (Handle 0 0 FAHREN_MODEL_SEQUENTIAL None)
  ∧ match layers h with
    | Some p => ∃ n, blocks !! p = Some n ∧ blocks' = delete p blocks
                     ∧ heap w' = release p n (heap w)
                     ∧ trace w' = EvFree true :: trace w
    | None => blocks' = blocks ∧ heap w' = heap w ∧ trace w' = trace w
    end
  ∧ files w' = (if opendir_succeeds plat (trace w')
                then cleanup_loop plat (readdir_names plat (files w)) (files w)
                else files w).
Proof.
  intros Hinit. unfold fahren_shutdown, free_layers.
  rewrite (proj2 (Z.eqb_neq _ _) Hinit).
  destruct (layers h) as [p|] eqn:Hl.
  - destruct (blocks !! p) as [n|] eqn:Hb; [|done]. cbn [exec_bind].
    cbn [initialized layer_count model_type layers heap files trace].
    destruct (opendir_succeeds plat (EvFree true :: trace w)) eqn:Hdir;
      intros [= <- <- <- <-]; cbn [heap files trace]; rewrite ?Hdir;
      (split; [done|]); (split; [done|]); (split; [by exists n|done]).
  - cbn [exec_bind].
    cbn [initialized layer_count model_type layers heap files trace].
    destruct (opendir_succeeds plat (trace w)) eqn:Hdir;
      intros [= <- <- <- <-]; cbn [heap files trace]; rewrite ?Hdir, ?Hl;
      (split; [done|]); (split; [done|]); (split; [done|done]).
Qed.

End Teardown.

(** ** Further properties of the Counter and the writer *)

Lemma dense_int_fits d : dense_int d → fits d.
Proof.
  intros (Hk & Hi & Ho). unfold fits, weight_count. rewrite Hk.
  unfold INT_MAX, SIZE_MAX in *. simpl. repeat split; nia.
Qed.

(** X1.  For a sequence of Dense layers whose densities are non-negative
    [int]s, no per-layer count can wrap: the Counter returns the exact
    sums of [in_dim * out_dim] and of [out_dim] when both are at most
    [SIZE_MAX], and ProcessingFailed otherwise. *)
Theorem dense_counts_are_exact mem cm ds :
  layer_sequence mem cm = Some ds → Forall dense_int ds →
  count_parameters mem cm
  = Ran (if bool_decide
              (Zsum ((fun d => in_dim d * out_dim d) <$> ds) ≤ SIZE_MAX
               ∧ Zsum (out_dim <$> ds) ≤ SIZE_MAX)
         then inr (Zsum ((fun d => in_dim d * out_dim d) <$> ds),
                   Zsum (out_dim <$> ds))
         else inl FAHREN_ERROR_PROCESSING_FAILED).
Proof.
  intros Hds Hdense.
  rewrite (count_parameters_resolved _ _ _ Hds).
  assert (Forall fits ds) as Hfit.
  { eapply Forall_impl; [exact Hdense|]. apply dense_int_fits. }
  rewrite (fits_total_weights _ Hfit), (fits_total_biases _ Hfit).
  assert (total_weight_count ds = Zsum ((fun d => in_dim d * out_dim d) <$> ds))
    as ->.
  { unfold total_weight_count. clear Hds Hfit.
    induction Hdense as [|d ds (Hk & _) _ IH]; [done|].
    cbn [fmap list_fmap Zsum foldr]. unfold Zsum in IH. rewrite IH.
    unfold weight_count. rewrite Hk. simpl. lia. }
  done.
Qed.

Lemma dense_counts_are_exact_witness :
  count_parameters two_dense two_dense_handle = Ran (inr (1 * 3 + 3 * 2, 3 + 2)).
Proof.
  assert (layer_sequence two_dense two_dense_handle
          = Some [Dims 1 3 FAHREN_LAYER_DENSE; Dims 3 2 FAHREN_LAYER_DENSE])
    as Hds by (vm_compute; reflexivity).
  assert (Forall dense_int
            [Dims 1 3 FAHREN_LAYER_DENSE; Dims 3 2 FAHREN_LAYER_DENSE])
    as Hdense.
  { repeat constructor; unfold INT_MAX; simpl; lia. }
  rewrite (dense_counts_are_exact _ _ _ Hds Hdense).
  vm_compute. reflexivity.
Defined.

(** X2.  When every per-layer count is representable and an exact total
    exceeds [SIZE_MAX], the call returns ProcessingFailed before doing
    anything: nothing is allocated, no sample is drawn, no file is
    opened. *)
Theorem overflow_is_reported_untouched env h p w ds :
  initialized h ≠ 0 →
  layer_sequence (heap w) h = Some ds → Forall fits ds →
  SIZE_MAX < total_weight_count ds ∨ SIZE_MAX < total_bias_count ds →
  fahren_write_random_weights env (Some h) (Some p) w
  = Ran (FAHREN_ERROR_PROCESSING_FAILED, w).
Proof.
  intros Hinit Hds Hfit Hover. unfold fahren_write_random_weights.
  rewrite (proj2 (Z.eqb_neq _ _) Hinit).
  by rewrite (counter_rejects_overflow _ _ _ Hds Hfit Hover).
Qed.

Lemma overflow_is_reported_untouched_witness :
  fahren_write_random_weights generous (Some heavy_handle)
    (Some "model.bin"%string) heavy_world
  = Ran (FAHREN_ERROR_PROCESSING_FAILED, heavy_world).
Proof.
  apply (overflow_is_reported_untouched generous heavy_handle
           "model.bin"%string heavy_world
           [Dims 1 2147483647 FAHREN_LAYER_DENSE;
            Dims 2147483647 2147483647 FAHREN_LAYER_DENSE;
            Dims 2147483647 2147483647 FAHREN_LAYER_DENSE;
            Dims 2147483647 2147483647 FAHREN_LAYER_DENSE;
            Dims 2147483647 2147483647 FAHREN_LAYER_DENSE;
            Dims 2147483647 2147483647 FAHREN_LAYER_DENSE]).
  - vm_compute; discriminate.
  - vm_compute; reflexivity.
  - repeat constructor; unfold weight_count, INT_MAX, SIZE_MAX; simpl; lia.
  - left. vm_compute. reflexivity.
Defined.

Section WriterProperties.

Variable env : environment.

(** X3.  The status names the cause: InvalidArgument is returned exactly
    for a null handle or path, NotInitialized exactly for a handle whose
    flag is 0 (with a path given), and every call on an initialized
    handle with a path returns Success or ProcessingFailed. *)
Theorem write_status_names_the_cause cm path w st w' :
  fahren_write_random_weights env cm path w = Ran (st, w') →
  (st = FAHREN_ERROR_INVALID_ARGUMENT ↔ cm = None ∨ path = None)
  ∧ (st = FAHREN_ERROR_NOT_INITIALIZED
     ↔ ∃ h, cm = Some h ∧ path ≠ None ∧ initialized h = 0)
  ∧ (st = FAHREN_SUCCESS ∨ st = FAHREN_ERROR_PROCESSING_FAILED
     ↔ ∃ h, cm = Some h ∧ path ≠ None ∧ initialized h ≠ 0).
Proof.
  destruct cm as [h|], path as [p|].
  2-4: (intros [= <- <-]; split; [|split]; split;
        first [ by intros [? (? & ? & ?)] | by intros [|] | by intros [|]
              | by intros | by right | by left ]).
  destruct (decide (initialized h = 0)) as [Hzero|Hinit].
  - unfold fahren_write_random_weights. rewrite Hzero.
    intros [= <- <-]. split; [|split]; split; try done.
    + by intros [|].
    + intros _. by exists h.
    + by intros [|].
    + intros (? & [= <-] & _ & ?). done.
  - intros Hrun.
    destruct (write_anatomy env h p w st w' Hinit Hrun) as (Hst & _).
    split; [|split]; split.
    + intros ->. by destruct Hst.
    + by intros [|].
    + intros ->. by destruct Hst.
    + intros (? & [= <-] & _ & ?). done.
    + intros _. by exists h.
    + intros _. by destruct Hst; [left|right].
Qed.

(** X4.  On every exit path the call frees each buffer it allocated and
    closes the stream it opened. *)
Theorem write_releases_what_it_acquires cm path w st w' :
  fahren_write_random_weights env cm path w = Ran (st, w') →
  buffers_held (trace w') = buffers_held (trace w)
  ∧ streams_held (trace w') = streams_held (trace w).
Proof.
  destruct cm as [h|], path as [p|]; try by intros [= <- <-].
  destruct (decide (initialized h = 0)) as [Hzero|Hinit].
  - unfold fahren_write_random_weights. rewrite Hzero. by intros [= <- <-].
  - intros Hrun.
    by destruct (write_anatomy env h p w st w' Hinit Hrun)
      as (_ & _ & ? & ? & _).
Qed.

(** X5.  If the destination cannot be opened, the call never returns
    Success and no file changes. *)
Theorem unopenable_destination cm path w st w' :
  (∀ t q, fopen_succeeds env t q = false) →
  fahren_write_random_weights env cm path w = Ran (st, w') →
  st ≠ FAHREN_SUCCESS ∧ files w' = files w.
Proof.
  intros Hshut.
  destruct cm as [h|], path as [p|]; try by intros [= <- <-].
  destruct (decide (initialized h = 0)) as [Hzero|Hinit].
  { unfold fahren_write_random_weights. rewrite Hzero. by intros [= <- <-]. }
  unfold fahren_write_random_weights.
  rewrite (proj2 (Z.eqb_neq _ _) Hinit).
  destruct (count_parameters (heap w) h) as [[s|[tw tb]]|] eqn:Hcount;
    cbn [exec_bind]; [| |done].
  { apply count_loop_early in Hcount as ->. by intros [= <- <-]. }
  destruct (count_parameters_totals _ _ _ _ Hcount)
    as (_ & _ & _ & _ & Htw & Htb).
  destruct (if 0 <? tw then _ else _) as [wb w1] eqn:Hm1.
  pose proof (prepare_frame _ _ _ _ _ _ Hm1) as (_ & Hf1 & _).
  destruct ((0 <? tw) && _); [by intros [= <- <-]|].
  destruct (if 0 <? tb then _ else _) as [bb w2] eqn:Hm2.
  pose proof (prepare_frame _ _ _ _ _ _ Hm2) as (_ & Hf2 & _).
  destruct ((0 <? tb) && _).
  { intros [= <- <-]. split; [done|].
    destruct (free_frame wb w2) as (_ & -> & _). congruence. }
  destruct (fill_loop env _ _ _ _ _ _ _ w2)
    as [[[[[wb' bb'] wi] bi] w3]|] eqn:Hfill; cbn [exec_bind]; [|done].
  pose proof (fill_loop_frame _ _ _ _ _ _ _ _ _ _ _ Hfill) as (_ & Hf3 & _).
  intros Hblob.
  destruct (write_blob_anatomy env p tw tb wb' bb' w3 st w' ltac:(lia)
              ltac:(lia) Hblob) as (_ & _ & _ & _ & _ & _ & _ & Hfile).
  rewrite Hshut in Hfile. destruct Hfile as [-> ->].
  split; [done|congruence].
Qed.

(** X6.  If memory cannot be had and the model has parameters, the call
    returns ProcessingFailed without opening a file or drawing a sample,
    and holds no buffer when it returns. *)
Theorem allocation_failure_is_clean h p w tw tb :
  (∀ t n, malloc_succeeds env t n = false) →
  initialized h ≠ 0 →
  count_parameters (heap w) h = Ran (inr (tw, tb)) →
  0 < tw ∨ 0 < tb →
  ∃ w', fahren_write_random_weights env (Some h) (Some p) w
        = Ran (FAHREN_ERROR_PROCESSING_FAILED, w')
        ∧ files w' = files w
        ∧ opened (trace w') = opened (trace w)
        ∧ samples (trace w') = samples (trace w)
        ∧ buffers_held (trace w') = buffers_held (trace w).
Proof.
  intros Hoom Hinit Hcount Hpos. unfold fahren_write_random_weights.
  rewrite (proj2 (Z.eqb_neq _ _) Hinit), Hcount. cbn [exec_bind].
  unfold malloc. rewrite !Hoom.
  destruct (Z.ltb_spec 0 tw) as [Hw|Hw]; cbn [andb].
  - rewrite bool_decide_true by done. by eexists.
  - rewrite Hoom. destruct (Z.ltb_spec 0 tb) as [Hb|Hb]; [|lia].
    cbn [andb]. rewrite bool_decide_true by done. by eexists.
Qed.

(** X7.  Whatever the call returns, either no file changed or only the
    file at the path did, and it then holds a prefix of a blob for the
    totals the Counter returned: a failed write leaves a truncated blob,
    never anything else. *)
Theorem truncated_blob_is_a_prefix cm p w st w' :
  fahren_write_random_weights env cm (Some p) w = Ran (st, w') →
  files w' = files w
  ∨ ∃ h tw tb ws bs c,
      cm = Some h
      ∧ count_parameters (heap w) h = Ran (inr (tw, tb))
      ∧ files w' = <[p := c]> (files w)
      ∧ c `prefix_of` blob tw tb ws bs
      ∧ Z.of_nat (length ws) = tw ∧ Z.of_nat (length bs) = tb.
Proof.
  destruct cm as [h|]; [|by intros [= <- <-]; left].
  destruct (decide (initialized h = 0)) as [Hzero|Hinit].
  { unfold fahren_write_random_weights. rewrite Hzero.
    intros [= <- <-]. by left. }
  intros Hrun.
  destruct (write_anatomy env h p w st w' Hinit Hrun)
    as (_ & _ & _ & _ & [(_ & _ & ->) | (tw & tb & Hcount & Hcase)]);
    [by left|].
  destruct Hcase as [(_ & ? & _) | (wn & bn & _ & _ & _ & _ & _ & Hfile)];
    [by left|].
  destruct Hfile as [[_ ?] | (c & ws & bs & ? & ? & ? & ? & _)]; [by left|].
  right. by exists h, tw, tb, ws, bs, c.
Qed.

(** X8.  After a call that returns Success, the floats handed to the
    stream, weights then biases, are a rearrangement of exactly the
    samples drawn during the call: one draw per float, none dropped and
    none used twice.  The file at the path holds a prefix of the blob
    made of them, and the whole blob when [fclose] did not fail. *)
Theorem written_floats_are_the_samples cm p w w' :
  fahren_write_random_weights env cm (Some p) w = Ran (FAHREN_SUCCESS, w') →
  ∃ h tw tb ws bs c,
    cm = Some h
    ∧ count_parameters (heap w) h = Ran (inr (tw, tb))
    ∧ Z.of_nat (length ws) = tw ∧ Z.of_nat (length bs) = tb
    ∧ samples (trace w') ≡ₚ ws ++ bs ++ samples (trace w)
    ∧ files w' !! p = Some c
    ∧ c `prefix_of` blob tw tb ws bs
    ∧ (closes_cleanly env → c = blob tw tb ws bs).
Proof.
  destruct cm as [h|]; [|by intros [= <- <-]].
  destruct (decide (initialized h = 0)) as [Hzero|Hinit].
  { unfold fahren_write_random_weights. by rewrite Hzero. }
  intros Hrun.
  destruct (write_anatomy env h p w _ w' Hinit Hrun)
    as (_ & _ & _ & _ & [(_ & ? & _) | (tw & tb & Hcount & Hcase)]); [done|].
  destruct Hcase as [(? & _) | (wn & bn & Hwn & Hbn & Hsam & _ & _ & Hfile)];
    [done|].
  destruct Hfile as [[? _] | (c & ws & bs & Hf & Hpre & _ & _ & Hok)]; [done|].
  destruct (Hok eq_refl) as (-> & -> & Hclean).
  exists h, tw, tb, wn, bn, c. rewrite Hf.
  split; [done|]. split; [done|]. split; [done|]. split; [done|].
  split; [done|]. split; [apply lookup_insert_eq|done].
Qed.

(** X9.  A model without parameters, in particular an initialized handle
    with [layer_count = 0] (whose layer pointer is then never read, even
    if null): the call asks for no memory and draws no sample; when it
    returns Success the file at the path holds a prefix of the 32-byte
    header with both counts 0, and the whole header when [fclose] did
    not fail. *)
Theorem parameterless_model h p w st w' :
  (layer_count h = 0 → count_parameters (heap w) h = Ran (inr (0, 0)))
  ∧ (initialized h ≠ 0 →
     count_parameters (heap w) h = Ran (inr (0, 0)) →
     fahren_write_random_weights env (Some h) (Some p) w = Ran (st, w') →
     mallocs (trace w') = mallocs (trace w)
     ∧ length (samples (trace w')) = length (samples (trace w))
     ∧ (st = FAHREN_SUCCESS →
        ∃ c, files w' = <[p := c]> (files w)
             ∧ c `prefix_of` blob 0 0 [] []
             ∧ length (blob 0 0 [] []) = 32%nat
             ∧ (closes_cleanly env → c = blob 0 0 [] []))).
Proof.
  split.
  { intros Hzero. unfold count_parameters. by rewrite Hzero. }
  intros Hinit Hcount Hrun.
  destruct (write_anatomy env h p w st w' Hinit Hrun)
    as (_ & _ & _ & _ & [(Hc & _) | (tw & tb & Hc & Hcase)]);
    rewrite Hcount in Hc; [done|].
  injection Hc as <- <-.
  destruct Hcase as [(_ & _ & _ & _ & [?|?] & _) |
                     (wn & bn & Hwn & Hbn & Hsam & Hmal & _ & Hfile)];
    [lia|lia|].
  apply nil_of_length_zero in Hwn as ->.
  apply nil_of_length_zero in Hbn as ->.
  split; [done|]. split; [by apply Permutation_length in Hsam|].
  intros ->.
  destruct Hfile as [[? _] | (c & ws & bs & Hf & Hpre & _ & _ & Hok)]; [done|].
  destruct (Hok eq_refl) as (-> & -> & Hclean).
  by exists c.
Qed.

(** X10.  On a platform where [malloc], [fopen] and [fwrite] never fail,
    a model whose per-layer counts are representable and whose totals fit
    in memory sizes ([4 * total] at most [SIZE_MAX]) gets Success,
    whatever becomes of the data when the stream is closed: the file
    holds a prefix of the blob of the exact totals, and the whole blob
    when [fclose] does not fail either. *)
Theorem healthy_platform_writes h p w ds :
  cooperative env → initialized h ≠ 0 →
  layer_sequence (heap w) h = Some ds → Forall fits ds →
  4 * total_weight_count ds ≤ SIZE_MAX →
  4 * total_bias_count ds ≤ SIZE_MAX →
  ∃ w' ws bs c,
    fahren_write_random_weights env (Some h) (Some p) w
    = Ran (FAHREN_SUCCESS, w')
    ∧ files w' = <[p := c]> (files w)
    ∧ c `prefix_of` blob (total_weight_count ds) (total_bias_count ds) ws bs
    ∧ (closes_cleanly env →
       c = blob (total_weight_count ds) (total_bias_count ds) ws bs)
    ∧ Z.of_nat (length ws) = total_weight_count ds
    ∧ Z.of_nat (length bs) = total_bias_count ds.
Proof.
  intros Hco Hinit Hds Hfit Hw4 Hb4.
  pose proof (count_parameters_resolved _ _ _ Hds) as Hcount.
  rewrite (fits_total_weights _ Hfit), (fits_total_biases _ Hfit) in Hcount.
  pose proof (machine_total_weights_nonneg ds) as Hwn.
  pose proof (machine_total_biases_nonneg ds) as Hbn.
  rewrite (fits_total_weights _ Hfit) in Hwn.
  rewrite (fits_total_biases _ Hfit) in Hbn.
  rewrite bool_decide_true in Hcount by lia.
  destruct (write_succeeds env h p w _ _ Hco Hinit Hcount) as [w' Hrun];
    [lia|lia|].
  destruct (write_spec env _ _ _ _ _ Hrun) as [_ Hok].
  destruct (Hok eq_refl)
    as (h' & tw & tb & ws & bs & c & [= <-] & _ & Hc & Hf & Hpre & Hclean
        & ? & ?).
  rewrite Hcount in Hc. injection Hc as <- <-.
  by exists w', ws, bs, c.
Qed.

End WriterProperties.

Lemma write_status_names_the_cause_witness :
  fahren_write_random_weights exhausted (Some two_dense_handle)
    (Some "out.bin"%string) two_dense_world
  = Ran (FAHREN_ERROR_PROCESSING_FAILED,
         emit (EvMalloc 36 false) two_dense_world)
  ∧ ∃ h, Some two_dense_handle = Some h
         ∧ Some "out.bin"%string ≠ None ∧ initialized h ≠ 0.
Proof.
  assert (fahren_write_random_weights exhausted (Some two_dense_handle)
            (Some "out.bin"%string) two_dense_world
          = Ran (FAHREN_ERROR_PROCESSING_FAILED,
                 emit (EvMalloc 36 false) two_dense_world)) as Hrun
    by (vm_compute; reflexivity).
  split; [exact Hrun|].
  apply (proj2 (proj2 (write_status_names_the_cause exhausted _ _ _ _ _ Hrun))).
  right. reflexivity.
Defined.

Lemma write_releases_what_it_acquires_witness :
  ∃ w',
    fahren_write_random_weights cramped (Some two_dense_handle)
      (Some "out.bin"%string) two_dense_world
    = Ran (FAHREN_ERROR_PROCESSING_FAILED, w')
    ∧ buffers_held (trace w') = buffers_held (trace two_dense_world)
    ∧ streams_held (trace w') = streams_held (trace two_dense_world).
Proof.
  eexists.
  match goal with
  | |- ?run = Ran (?s, ?w') ∧ _ =>
      assert (run = Ran (s, w')) as Hrun by (vm_compute; reflexivity)
  end.
  split; [exact Hrun|].
  exact (write_releases_what_it_acquires cramped _ _ _ _ _ Hrun).
Defined.

Lemma unopenable_destination_witness :
  ∃ w',
    fahren_write_random_weights readonly (Some two_dense_handle)
      (Some "out.bin"%string) two_dense_world
    = Ran (FAHREN_ERROR_PROCESSING_FAILED, w')
    ∧ FAHREN_ERROR_PROCESSING_FAILED ≠ FAHREN_SUCCESS
    ∧ files w' = files two_dense_world.
Proof.
  eexists.
  match goal with
  | |- ?run = Ran (?s, ?w') ∧ _ =>
      assert (run = Ran (s, w')) as Hrun by (vm_compute; reflexivity)
  end.
  split; [exact Hrun|].
  exact (unopenable_destination readonly _ _ _ _ _ (fun _ _ => eq_refl) Hrun).
Defined.

Lemma allocation_failure_is_clean_witness :
  ∃ w',
    fahren_write_random_weights exhausted (Some two_dense_handle)
      (Some "out.bin"%string) two_dense_world
    = Ran (FAHREN_ERROR_PROCESSING_FAILED, w')
    ∧ files w' = files two_dense_world
    ∧ opened (trace w') = opened (trace two_dense_world)
    ∧ samples (trace w') = samples (trace two_dense_world)
    ∧ buffers_held (trace w') = buffers_held (trace two_dense_world).
Proof.
  apply (allocation_failure_is_clean exhausted two_dense_handle
           "out.bin"%string two_dense_world 9 5).
  - reflexivity.
  - vm_compute; discriminate.
  - vm_compute; reflexivity.
  - left. lia.
Defined.

Lemma truncated_blob_is_a_prefix_witness :
  ∃ w',
    fahren_write_random_weights cramped (Some two_dense_handle)
      (Some "out.bin"%string) two_dense_world
    = Ran (FAHREN_ERROR_PROCESSING_FAILED, w')
    ∧ files w' !! "out.bin"%string = Some [78; 72; 65]
    ∧ (files w' = files two_dense_world
       ∨ ∃ h tw tb ws bs c,
           Some two_dense_handle = Some h
           ∧ count_parameters (heap two_dense_world) h = Ran (inr (tw, tb))
           ∧ files w' = <["out.bin"%string := c]> (files two_dense_world)
           ∧ c `prefix_of` blob tw tb ws bs
           ∧ Z.of_nat (length ws) = tw ∧ Z.of_nat (length bs) = tb).
Proof.
  eexists.
  match goal with
  | |- ?run = Ran (?s, ?w') ∧ _ =>
      assert (run = Ran (s, w')) as Hrun by (vm_compute; reflexivity)
  end.
  split; [exact Hrun|]. split; [vm_compute; reflexivity|].
  exact (truncated_blob_is_a_prefix cramped _ _ _ _ _ Hrun).
Defined.

Lemma written_floats_are_the_samples_witness :
  ∃ w' h tw tb ws bs c,
    fahren_write_random_weights capped (Some two_dense_handle)
      (Some "out.bin"%string) two_dense_world = Ran (FAHREN_SUCCESS, w')
    ∧ Some two_dense_handle = Some h
    ∧ count_parameters (heap two_dense_world) h = Ran (inr (tw, tb))
    ∧ Z.of_nat (length ws) = tw ∧ Z.of_nat (length bs) = tb
    ∧ samples (trace w') ≡ₚ ws ++ bs ++ samples (trace two_dense_world)
    ∧ files w' !! "out.bin"%string = Some c
    ∧ c `prefix_of` blob tw tb ws bs
    ∧ (closes_cleanly capped → c = blob tw tb ws bs).
Proof.
  eexists.
  match goal with
  | |- ∃ h tw tb ws bs c, ?run = Ran (?s, ?w') ∧ _ =>
      assert (run = Ran (s, w')) as Hrun by (vm_compute; reflexivity)
  end.
  destruct (written_floats_are_the_samples capped _ _ _ _ Hrun)
    as (h & tw & tb & ws & bs & c & H).
  exists h, tw, tb, ws, bs, c. split; [exact Hrun|exact H].
Defined.

Lemma parameterless_model_witness :
  ∃ w',
    fahren_write_random_weights generous (Some hollow_handle)
      (Some "out.bin"%string) empty_world = Ran (FAHREN_SUCCESS, w')
    ∧ mallocs (trace w') = mallocs (trace empty_world)
    ∧ length (samples (trace w')) = length (samples (trace empty_world))
    ∧ files w' = <["out.bin"%string := blob 0 0 [] []]> (files empty_world).
Proof.
  eexists.
  match goal with
  | |- ?run = Ran (?s, ?w') ∧ _ =>
      assert (run = Ran (s, w')) as Hrun by (vm_compute; reflexivity)
  end.
  split; [exact Hrun|].
  assert (initialized hollow_handle ≠ 0) as Hinit by (vm_compute; discriminate).
  match type of Hrun with
  | _ = Ran (_, ?w1) =>
      destruct (parameterless_model generous hollow_handle "out.bin"%string
                  empty_world FAHREN_SUCCESS w1) as [Hcount Hrest]
  end.
  destruct (Hrest Hinit (Hcount eq_refl) Hrun) as (Hm & Hs & Hfile).
  split; [exact Hm|]. split; [exact Hs|].
  destruct (Hfile eq_refl) as (c & Hf & _ & _ & Hclean).
  rewrite Hf, (Hclean (fun _ _ n => le_n n)). reflexivity.
Defined.

Lemma healthy_platform_writes_witness :
  ∃ w' ws bs,
    fahren_write_random_weights generous (Some two_dense_handle)
      (Some "out.bin"%string) two_dense_world = Ran (FAHREN_SUCCESS, w')
    ∧ files w' = <["out.bin"%string := blob 9 5 ws bs]> (files two_dense_world)
    ∧ Z.of_nat (length ws) = 9 ∧ Z.of_nat (length bs) = 5.
Proof.
  assert (Forall fits [Dims 1 3 FAHREN_LAYER_DENSE; Dims 3 2 FAHREN_LAYER_DENSE])
    as Hfit.
  { repeat constructor; unfold weight_count, SIZE_MAX, INT_MAX; simpl; lia. }
  destruct (healthy_platform_writes generous two_dense_handle "out.bin"%string
              two_dense_world
              [Dims 1 3 FAHREN_LAYER_DENSE; Dims 3 2 FAHREN_LAYER_DENSE]
              generous_cooperative)
    as (w' & ws & bs & c & Hrun & Hf & _ & Hclean & Hws & Hbs).
  - vm_compute; discriminate.
  - vm_compute; reflexivity.
  - exact Hfit.
  - vm_compute; discriminate.
  - vm_compute; discriminate.
  - exists w', ws, bs. split; [exact Hrun|].
    rewrite Hf, (Hclean (fun _ _ n => le_n n)).
    split; [reflexivity|]. split; [exact Hws|exact Hbs].
Defined.

(** ** Properties of allocation and teardown *)

Lemma resolve_zero_layers mem p n : ∀ j,
  (∀ a, p + j ≤ a < p + j + Z.of_nat n → mem !! a = Some zero_layer) →
  resolve_layers mem (Some p) n j
  = Some (replicate n (Dims 1 0 FAHREN_LAYER_DENSE)).
Proof.
  induction n as [|n IH]; intros j Hz; [done|].
  cbn [resolve_layers replicate]. unfold resolve_layer.
  rewrite (Hz (p + j)) by lia. cbn [previous_layer zero_layer density layer_type].
  rewrite IH; [done|]. intros a Ha. apply Hz. lia.
Qed.

Lemma zero_layers_totals n :
  machine_total_weights (replicate n (Dims 1 0 FAHREN_LAYER_DENSE)) = 0
  ∧ machine_total_biases (replicate n (Dims 1 0 FAHREN_LAYER_DENSE)) = 0.
Proof.
  induction n as [|n [IHw IHb]]; [done|]. cbn [replicate].
  rewrite machine_total_weights_cons, machine_total_biases_cons, IHw, IHb.
  done.
Qed.

Section TeardownProperties.

Variable plat : housekeeping.

Lemma shutdown_runs h p n blocks w :
  initialized h ≠ 0 → layers h = Some p → blocks !! p = Some n →
  ∃ w', fahren_shutdown plat (Some h) blocks w
        = Ran (FAHREN_SUCCESS, Some (Handle 0 0 FAHREN_MODEL_SEQUENTIAL None),
               delete p blocks, w').
Proof.
  intros Hinit Hl Hb. unfold fahren_shutdown, free_layers.
  rewrite (proj2 (Z.eqb_neq _ _) Hinit), Hl, Hb. cbn [exec_bind].
  by eexists.
Qed.

(** X11.  Teardown is final.  A completed [fahren_shutdown] of an
    initialized handle returns Success whatever [opendir] and [unlink]
    did, and leaves the handle with flag 0, no layers and a null layer
    pointer; a second [fahren_shutdown] and any
    [fahren_write_random_weights] on it return NotInitialized and change
    nothing (no second [free], no file). *)
Theorem shutdown_is_final env h blocks w st cm' blocks' w' :
  initialized h ≠ 0 →
  fahren_shutdown plat (Some h) blocks w = Ran (st, cm', blocks', w') →
  st = FAHREN_SUCCESS
  ∧ cm' = Some (Handle 0 0 FAHREN_MODEL_SEQUENTIAL None)
  ∧ fahren_shutdown plat cm' blocks' w'
    = Ran (FAHREN_ERROR_NOT_INITIALIZED, cm', blocks', w')
  ∧ ∀ p, fahren_write_random_weights env cm' (Some p) w'
         = Ran (FAHREN_ERROR_NOT_INITIALIZED, w').
Proof.
  intros Hinit Hrun.
  destruct (shutdown_spec plat _ _ _ _ _ _ _ Hinit Hrun) as (-> & -> & _).
  by repeat split.
Qed.

(** X12.  Teardown frees exactly the block the handle points to: the
    block is no longer live, its cells are gone from the layer memory,
    and every other cell is as before.  If the layer pointer is not a
    live block of the allocator, the [free] is undefined. *)
Theorem shutdown_frees_its_block h p blocks w :
  initialized h ≠ 0 → layers h = Some p →
  match blocks !! p with
  | None => fahren_shutdown plat (Some h) blocks w = Undef
  | Some n =>
      ∃ cm' w',
        fahren_shutdown plat (Some h) blocks w
        = Ran (FAHREN_SUCCESS, cm', delete p blocks, w')
        ∧ (∀ a, p ≤ a < p + Z.of_nat n → heap w' !! a = None)
        ∧ (∀ a, ¬ (p ≤ a < p + Z.of_nat n) → heap w' !! a = heap w !! a)
        ∧ buffers_held (trace w') = buffers_held (trace w) - 1
  end.
Proof.
  intros Hinit Hl. destruct (blocks !! p) as [n|] eqn:Hb.
  - destruct (shutdown_runs h p n blocks w Hinit Hl Hb) as [w' Hrun].
    exists (Some (Handle 0 0 FAHREN_MODEL_SEQUENTIAL None)), w'.
    split; [done|].
    destruct (shutdown_spec plat _ _ _ _ _ _ _ Hinit Hrun) as (_ & _ & Hfree & _).
    rewrite Hl in Hfree. destruct Hfree as (n' & Hb' & _ & Hheap & Htrace).
    rewrite Hb in Hb'. injection Hb' as <-.
    rewrite Hheap, Htrace.
    split; [intros a Ha; by apply release_lookup_in|].
    split; [intros a Ha; by apply release_lookup_out|].
    unfold buffers_held. cbn. lia.
  - unfold fahren_shutdown, free_layers.
    by rewrite (proj2 (Z.eqb_neq _ _) Hinit), Hl, Hb.
Qed.

(** X13.  Teardown creates and modifies no file, and the only files it
    can remove are those whose name starts with "fahren_" and does not
    end in ".bin": every other file, model binaries included, is left
    with its contents. *)
Theorem shutdown_spares_other_files cm blocks w st cm' blocks' w' (name : string) :
  fahren_shutdown plat cm blocks w = Ran (st, cm', blocks', w') →
  files w' !! name = files w !! name
  ∨ (files w' !! name = None
     ∧ (∃ rest, name = "fahren_" +:+ rest)
     ∧ ¬ ∃ stem, name = stem +:+ ".bin").
Proof.
  destruct cm as [h|]; [|by intros [= _ _ _ <-]; left].
  destruct (decide (initialized h = 0)) as [Hzero|Hinit].
  { unfold fahren_shutdown. rewrite Hzero. intros [= _ _ _ <-]. by left. }
  intros Hrun.
  destruct (shutdown_spec plat _ _ _ _ _ _ _ Hinit Hrun) as (_ & _ & _ & ->).
  destruct (opendir_succeeds plat (trace w')); [|by left].
  apply cleanup_loop_lookup.
Qed.

(** X14.  When the directory can be read and [unlink] succeeds, teardown
    removes every listed file whose name starts with "fahren_" and does
    not end in ".bin". *)
Theorem shutdown_removes_scratch_files h blocks w st cm' blocks' w'
    (name rest : string) :
  initialized h ≠ 0 →
  (∀ t, opendir_succeeds plat t = true) →
  (∀ fs q, unlink_succeeds plat fs q = true) →
  name ∈ readdir_names plat (files w) →
  name = "fahren_" +:+ rest → ¬ (∃ stem, name = stem +:+ ".bin") →
  fahren_shutdown plat (Some h) blocks w = Ran (st, cm', blocks', w') →
  files w' !! name = None.
Proof.
  intros Hinit Hdir Hun Hin Hpre Hbin Hrun.
  destruct (shutdown_spec plat _ _ _ _ _ _ _ Hinit Hrun) as (_ & _ & _ & ->).
  rewrite Hdir. apply cleanup_loop_removes; [done|done| |done].
  by exists rest.
Qed.

(** X15.  A whole life cycle.  Layers obtained from
    [fahren_alloc_layers] (placed on unused memory) and handed to
    [fahren_init] are given back by [fahren_shutdown]: it returns
    Success, the handle is reset, the allocator's live blocks and the
    layer memory are as before the allocation, no buffer is held, and
    the initial model file written by [fahren_init] is still there. *)
Theorem lifecycle_round_trip env h mt count blocks w p blocks1 w1 st cm2 w2 :
  fahren_alloc_layers plat count blocks w = (Some p, blocks1, w1) →
  blocks !! p = None →
  (∀ a, p ≤ a < p + count → heap w !! a = None) →
  fahren_init env (Some h) mt count (Some p) w1 = Ran (st, cm2, w2) →
  ∃ w3,
    fahren_shutdown plat cm2 blocks1 w2
    = Ran (FAHREN_SUCCESS, Some (Handle 0 0 FAHREN_MODEL_SEQUENTIAL None),
           blocks, w3)
    ∧ heap w3 = heap w
    ∧ buffers_held (trace w3) = buffers_held (trace w)
    ∧ files w3 !! "fahren_initial_model.bin"%string
      = files w2 !! "fahren_initial_model.bin"%string.
Proof.
  intros Halloc Hblock Hfresh Hinit.
  unfold fahren_alloc_layers, calloc_layers in Halloc.
  destruct (Z.eqb_spec count 0) as [|Hcount]; [done|].
  destruct (SIZE_MAX <? count * sizeof_layer); [done|].
  destruct (calloc_place plat blocks (trace w) count) as [p'|]; [|done].
  injection Halloc as -> <- <-.
  unfold fahren_init in Hinit.
  rewrite (proj2 (Z.eqb_neq _ _) Hcount) in Hinit.
  cbn [initialized layer_count model_type layers] in Hinit.
  destruct (fahren_write_random_weights env _ _ _) as [[s wr]|] eqn:Hrun;
    [|done].
  cbn [exec_bind] in Hinit. injection Hinit as <- <- <-.
  assert (initialized (Handle 1 count mt (Some p)) ≠ 0) as Hflag by done.
  destruct (write_anatomy env _ _ _ _ _ Hflag Hrun)
    as (_ & Hheap & Hheld & _).
  cbn [heap trace] in Hheap, Hheld.
  destruct (shutdown_runs (Handle 1 count mt (Some p)) p (Z.to_nat count)
              (<[p := Z.to_nat count]> blocks) wr)
    as [w3 Hshut]; [done|done|apply lookup_insert_eq|].
  exists w3.
  destruct (shutdown_spec plat _ _ _ _ _ _ _ Hflag Hshut)
    as (_ & _ & Hfree & Hfiles).
  rewrite delete_insert_id in Hshut by done.
  split; [done|].
  cbn [layers] in Hfree. destruct Hfree as (n & Hn & _ & Hh3 & Ht3).
  rewrite lookup_insert_eq in Hn. injection Hn as <-.
  split; [|split].
  - rewrite Hh3, Hheap. apply release_establish.
    intros a Ha. apply Hfresh. lia.
  - rewrite Ht3. unfold buffers_held in *. cbn. cbn in Hheld. lia.
  - rewrite Hfiles. destruct (opendir_succeeds plat (trace w3)); [|done].
    destruct (cleanup_loop_lookup plat (readdir_names plat (files wr))
                (files wr) "fahren_initial_model.bin"%string)
      as [Heq|(_ & _ & Hbin)]; [done|].
    exfalso. apply Hbin. by exists "fahren_initial_model"%string.
Qed.

(** X16.  [fahren_alloc_layers] returns null for a count of 0 or a byte
    size that is not representable, and then (as whenever [calloc]
    fails) no block, cell or file changes.  Otherwise the new block has
    [count] zeroed layers (density 0, no predecessor, Dense), every
    other cell is as before, and a model over these layers has no
    parameters: the Counter returns (0, 0). *)
Theorem fresh_layers_have_no_parameters count blocks w r blocks1 w1 :
  0 ≤ count →
  fahren_alloc_layers plat count blocks w = (r, blocks1, w1) →
  files w1 = files w
  ∧ (count = 0 ∨ SIZE_MAX < count * sizeof_layer → r = None)
  ∧ match r with
    | None => blocks1 = blocks ∧ heap w1 = heap w
    | Some p =>
        blocks1 = <[p := Z.to_nat count]> blocks
        ∧ (∀ i, 0 ≤ i < count → heap w1 !! (p + i) = Some zero_layer)
        ∧ (∀ a, ¬ (p ≤ a < p + count) → heap w1 !! a = heap w !! a)
        ∧ ∀ mt, count_parameters (heap w1) (Handle 1 count mt (Some p))
                = Ran (inr (0, 0))
    end.
Proof.
  intros Hnn. unfold fahren_alloc_layers, calloc_layers.
  destruct (Z.eqb_spec count 0) as [Hzero|Hcount].
  { intros [= <- <- <-]. by repeat split. }
  destruct (Z.ltb_spec SIZE_MAX (count * sizeof_layer)) as [Hbig|Hsmall].
  { intros [= <- <- <-]. by repeat split. }
  destruct (calloc_place plat blocks (trace w) count) as [p|].
  2: { intros [= <- <- <-]. split; [done|]. split; [intros [|]; [done|lia]|].
       by split. }
  intros [= <- <- <-]. cbn [heap files].
  split; [done|]. split; [intros [|]; [done|lia]|].
  assert (∀ a, p ≤ a < p + count →
               establish p (Z.to_nat count) (heap w) !! a = Some zero_layer)
    as Hcells.
  { intros a Ha. apply establish_lookup_in. lia. }
  split; [done|]. split; [intros i Hi; apply Hcells; lia|].
  split; [intros a Ha; apply establish_lookup_out; lia|].
  intros mt.
  rewrite (count_parameters_resolved _ _
             (replicate (Z.to_nat count) (Dims 1 0 FAHREN_LAYER_DENSE))).
  - destruct (zero_layers_totals (Z.to_nat count)) as [-> ->].
    by rewrite bool_decide_true by (unfold SIZE_MAX; lia).
  - unfold layer_sequence. cbn [layers layer_count].
    apply resolve_zero_layers. intros a Ha. apply Hcells. lia.
Qed.

End TeardownProperties.

Lemma shutdown_is_final_witness :
  ∃ cm' blocks' w',
    fahren_shutdown tidy (Some two_dense_handle) two_dense_blocks littered_world
    = Ran (FAHREN_SUCCESS, cm', blocks', w')
    ∧ fahren_shutdown tidy cm' blocks' w'
      = Ran (FAHREN_ERROR_NOT_INITIALIZED, cm', blocks', w')
    ∧ fahren_write_random_weights generous cm' (Some "out.bin"%string) w'
      = Ran (FAHREN_ERROR_NOT_INITIALIZED, w').
Proof.
  eexists _, _, _.
  match goal with
  | |- ?run = ?res ∧ _ =>
      assert (run = res) as Hrun by (vm_compute; reflexivity)
  end.
  split; [exact Hrun|].
  assert (initialized two_dense_handle ≠ 0) as Hinit
    by (vm_compute; discriminate).
  destruct (shutdown_is_final tidy generous _ _ _ _ _ _ _ Hinit Hrun)
    as (_ & _ & Hagain & Hwrite).
  split; [exact Hagain|exact (Hwrite "out.bin"%string)].
Defined.

Lemma shutdown_frees_its_block_witness :
  ∃ cm' w',
    fahren_shutdown tidy (Some two_dense_handle) two_dense_blocks littered_world
    = Ran (FAHREN_SUCCESS, cm', delete 100 two_dense_blocks, w')
    ∧ (∀ a, 100 ≤ a < 100 + Z.of_nat 2 → heap w' !! a = None)
    ∧ (∀ a, ¬ (100 ≤ a < 100 + Z.of_nat 2) →
            heap w' !! a = heap littered_world !! a)
    ∧ buffers_held (trace w') = buffers_held (trace littered_world) - 1.
Proof.
  assert (initialized two_dense_handle ≠ 0) as Hinit
    by (vm_compute; discriminate).
  exact (shutdown_frees_its_block tidy two_dense_handle 100 two_dense_blocks
           littered_world Hinit eq_refl).
Defined.

Lemma shutdown_spares_other_files_witness :
  ∃ cm' blocks' w',
    fahren_shutdown tidy (Some two_dense_handle) two_dense_blocks littered_world
    = Ran (FAHREN_SUCCESS, cm', blocks', w')
    ∧ files w' !! "notes.txt"%string = Some [3]
    ∧ files w' !! "fahren_initial_model.bin"%string = Some [2]
    ∧ (files w' !! "notes.txt"%string
       = files littered_world !! "notes.txt"%string
       ∨ (files w' !! "notes.txt"%string = None
          ∧ (∃ rest, "notes.txt"%string = "fahren_" +:+ rest)
          ∧ ¬ ∃ stem, "notes.txt"%string = stem +:+ ".bin")).
Proof.
  eexists _, _, _.
  match goal with
  | |- ?run = ?res ∧ _ =>
      assert (run = res) as Hrun by (vm_compute; reflexivity)
  end.
  split; [exact Hrun|].
  split; [vm_compute; reflexivity|]. split; [vm_compute; reflexivity|].
  exact (shutdown_spares_other_files tidy _ _ _ _ _ _ _ "notes.txt"%string Hrun).
Defined.

Lemma shutdown_removes_scratch_files_witness :
  ∃ cm' blocks' w',
    fahren_shutdown tidy (Some two_dense_handle) two_dense_blocks littered_world
    = Ran (FAHREN_SUCCESS, cm', blocks', w')
    ∧ files littered_world !! "fahren_scratch.tmp"%string = Some [1]
    ∧ files w' !! "fahren_scratch.tmp"%string = None.
Proof.
  eexists _, _, _.
  match goal with
  | |- ?run = ?res ∧ _ =>
      assert (run = res) as Hrun by (vm_compute; reflexivity)
  end.
  split; [exact Hrun|]. split; [vm_compute; reflexivity|].
  assert (initialized two_dense_handle ≠ 0) as Hinit
    by (vm_compute; discriminate).
  refine (shutdown_removes_scratch_files tidy _ _ _ _ _ _ _
            "fahren_scratch.tmp"%string "scratch.tmp"%string
            Hinit _ _ _ _ _ Hrun).
  - reflexivity.
  - reflexivity.
  - vm_compute. apply list_elem_of_In. simpl. tauto.
  - reflexivity.
  - intros Hbin. apply bin_suffix_test in Hbin. vm_compute in Hbin.
    discriminate Hbin.
Defined.

Lemma lifecycle_round_trip_witness :
  ∃ blocks1 w1 st cm2 w2,
    fahren_alloc_layers tidy 2 ∅ empty_world = (Some 1, blocks1, w1)
    ∧ fahren_init generous (Some blank_handle) FAHREN_MODEL_SEQUENTIAL 2
        (Some 1) w1 = Ran (st, cm2, w2)
    ∧ ∃ w3,
        fahren_shutdown tidy cm2 blocks1 w2
        = Ran (FAHREN_SUCCESS,
               Some (Handle 0 0 FAHREN_MODEL_SEQUENTIAL None), ∅, w3)
        ∧ heap w3 = heap empty_world
        ∧ buffers_held (trace w3) = buffers_held (trace empty_world)
        ∧ files w3 !! "fahren_initial_model.bin"%string
          = files w2 !! "fahren_initial_model.bin"%string.
Proof.
  eexists _, _, _, _, _.
  match goal with
  | |- ?run = ?res ∧ _ =>
      assert (run = res) as Halloc by (vm_compute; reflexivity)
  end.
  split; [exact Halloc|].
  match goal with
  | |- ?run = ?res ∧ _ =>
      assert (run = res) as Hinit by (vm_compute; reflexivity)
  end.
  split; [exact Hinit|].
  exact (lifecycle_round_trip tidy generous blank_handle
           FAHREN_MODEL_SEQUENTIAL 2 ∅ empty_world 1 _ _ _ _ _
           Halloc (lookup_empty 1) (fun a _ => lookup_empty a) Hinit).
Defined.

Lemma fresh_layers_have_no_parameters_witness :
  ∃ blocks1 w1,
    fahren_alloc_layers tidy 2 ∅ empty_world = (Some 1, blocks1, w1)
    ∧ heap w1 !! 2 = Some zero_layer
    ∧ ∀ mt, count_parameters (heap w1) (Handle 1 2 mt (Some 1))
            = Ran (inr (0, 0)).
Proof.
  eexists _, _.
  match goal with
  | |- ?run = ?res ∧ _ =>
      assert (run = res) as Halloc by (vm_compute; reflexivity)
  end.
  split; [exact Halloc|].
  assert (0 ≤ 2) as Hnn by lia.
  pose proof (fresh_layers_have_no_parameters tidy 2 ∅ empty_world _ _ _
                Hnn Halloc) as (_ & _ & _ & Hcells & _ & Hcount).
  split; [exact (Hcells 1 ltac:(lia))|exact Hcount].
Defined.
